(** * NEOS Pizza inventory: the [Inventario] repository over its SQLite table

    A shallow embedding of [inventario_app.py]: the [Producto] record, the
    Python objects it lives in (a heap of mutable [Producto] objects that
    the dictionary and its callers share by reference), the dictionary
    [self.productos], the SQLite connection with the statements the program
    issues, and the methods of [Inventario] together with
    [cargar_ejemplo_neos].

    Conventions of the model
    - a Python [int] is a [Z]; the store keeps 64-bit integers, and binding
      a larger one raises [OverflowError];
    - a Python [float] is a binary64 datum, [spec_float]; the store turns a
      NaN into NULL when it binds it, and is taken to return any other
      REAL as the datum it was given (a zero with its sign);
    - a Python [str] is a [string]; [str.lower] and [str.strip] are modelled
      on the ASCII range (letters A-Z, the ASCII white space), other
      characters are left as they are;
    - the table [productos] is the list of its rows in ascending [id], a
      connection is the file as committed together with the table as the
      open transaction sees it; failures of the environment (no disk, a
      locked file) are not modelled;
    - a method is a function [world -> option (outcome A * world)]:
      [Raise e] is an exception that leaves the method, [None] is a world
      that no Python program reaches (a reference to no object). *)

From Stdlib Require Import ZArith List String Ascii Bool Lia.
From Stdlib Require Import Floats.SpecFloat.
From Stdlib Require Import DecimalString.
Import ListNotations.

Local Open Scope Z_scope.

(** ** Python strings *)

Module PyStr.

Definition code (c : ascii) : Z := Z.of_N (N_of_ascii c).

(** [str.isspace] on one ASCII character: TAB, LF, VT, FF, CR, the four
    separators FS, GS, RS, US and the space. *)
Definition isspace (c : ascii) : bool :=
  ((9 <=? code c) && (code c <=? 13))
  || ((28 <=? code c) && (code c <=? 31))
  || (code c =? 32).

Definition isupper (c : ascii) : bool :=
  (65 <=? code c) && (code c <=? 90).

Definition lower_char (c : ascii) : ascii :=
  if isupper c then ascii_of_N (N_of_ascii c + 32) else c.

(** [s.lower()] *)
Fixpoint lower (s : string) : string :=
  match s with
  | EmptyString => EmptyString
  | String c t => String (lower_char c) (lower t)
  end.

(** [s.lstrip()] *)
Fixpoint lstrip (s : string) : string :=
  match s with
  | EmptyString => EmptyString
  | String c t => if isspace c then lstrip t else s
  end.

(** [s.rstrip()] *)
Fixpoint rstrip (s : string) : string :=
  match s with
  | EmptyString => EmptyString
  | String c t =>
      match rstrip t with
      | EmptyString => if isspace c then EmptyString else String c EmptyString
      | r => String c r
      end
  end.

(** [s.strip()] *)
Definition strip (s : string) : string := rstrip (lstrip s).

(** [needle in hay] on strings: [needle] occurs in [hay] as a substring. *)
Fixpoint contains (needle hay : string) : bool :=
  String.prefix needle hay
  || match hay with
     | EmptyString => false
     | String _ t => contains needle t
     end.





End PyStr.

(** ** The [Producto] dataclass *)

Module Producto.

Record t : Type := mk
  { id : Z;
    nombre : string;
    cantidad : Z;
    precio : spec_float }.

Definition get_id (self : t) : Z := id self.
Definition get_nombre (self : t) : string := nombre self.
Definition get_cantidad (self : t) : Z := cantidad self.
Definition get_precio (self : t) : spec_float := precio self.

Definition set_id (self : t) (nuevo_id : Z) : t :=
  mk nuevo_id (nombre self) (cantidad self) (precio self).
Definition set_nombre (self : t) (nuevo_nombre : string) : t :=
  mk (id self) nuevo_nombre (cantidad self) (precio self).
Definition set_cantidad (self : t) (nueva_cantidad : Z) : t :=
  mk (id self) (nombre self) nueva_cantidad (precio self).
Definition set_precio (self : t) (nuevo_precio : spec_float) : t :=
  mk (id self) (nombre self) (cantidad self) nuevo_precio.

End Producto.

(** ** Python objects: references into a heap of [Producto] objects

    The dictionary holds references: [self.productos[producto.id] = producto]
    stores the caller's object, and [set_cantidad] mutates that object. *)

Definition ref : Type := nat.
Definition heap : Type := list Producto.t.

Definition deref (h : heap) (r : ref) : option Producto.t := nth_error h r.

(** [Producto(...)]: a new object, at the end of the heap. *)
Definition alloc (h : heap) (p : Producto.t) : ref * heap :=
  (List.length h, h ++ [p]).

(** The object at [r] becomes [p]. *)
Fixpoint store (h : heap) (r : ref) (p : Producto.t) : heap :=
  match h, r with
  | [], _ => []
  | _ :: t, O => p :: t
  | x :: t, S r' => x :: store t r' p
  end.

(** ** The dictionary [self.productos]: keys in insertion order *)

Definition dict : Type := list (Z * ref).

(** [d.get(k)]; [d[k]] raises [KeyError] where this is [None]. *)
Fixpoint dict_get (k : Z) (d : dict) : option ref :=
  match d with
  | [] => None
  | (k', v) :: t => if k =? k' then Some v else dict_get k t
  end.

(** [k in d] *)
Definition dict_contains (k : Z) (d : dict) : bool :=
  match dict_get k d with Some _ => true | None => false end.

(** [d[k] = v]: a present key keeps its place, a new one goes last. *)
Fixpoint dict_set (k : Z) (v : ref) (d : dict) : dict :=
  match d with
  | [] => [(k, v)]
  | (k', v') :: t =>
      if k =? k' then (k, v) :: t else (k', v') :: dict_set k v t
  end.

(** [d.pop(k, None)] *)
Fixpoint dict_pop (k : Z) (d : dict) : dict :=
  match d with
  | [] => []
  | (k', v') :: t => if k =? k' then t else (k', v') :: dict_pop k t
  end.

(** [d.values()] and the keys, in the dictionary's order. *)
Definition dict_values (d : dict) : list ref := map snd d.
Definition dict_keys (d : dict) : list Z := map fst d.

(** ** Exceptions and outcomes *)

Inductive exn : Type :=
| IntegrityError   (* sqlite3.IntegrityError *)
| OverflowError    (* Python int too large to convert to SQLite INTEGER *)
| KeyError.

Definition exn_eqb (a b : exn) : bool :=
  match a, b with
  | IntegrityError, IntegrityError => true
  | OverflowError, OverflowError => true
  | KeyError, KeyError => true
  | _, _ => false
  end.

Inductive outcome (A : Type) : Type :=
| Return (a : A)
| Raise (e : exn).

Arguments Return {A} a.
Arguments Raise {A} e.

(** ** The SQLite store: the table [productos] and the statements the
    program issues on it *)

Module Sqlite.

(** A row of
    [productos(id INTEGER PRIMARY KEY, nombre TEXT NOT NULL,
               cantidad INTEGER NOT NULL CHECK (cantidad >= 0),
               precio REAL NOT NULL CHECK (precio >= 0))]. *)
Record row : Type := mk_row
  { col_id : Z;
    col_nombre : string;
    col_cantidad : Z;
    col_precio : spec_float }.

(** The rows in the table's own order, ascending [id] (the rowid). *)
Definition table : Type := list row.

Inductive statement : Type :=
| PragmaForeignKeysOn
| CreateTableIfNotExists
| SelectOrderById
| Insert (id : Z) (nombre : string) (cantidad : Z) (precio : spec_float)
| Delete (id : Z)
| UpdateCantidad (cantidad : Z) (id : Z)
| UpdatePrecio (precio : spec_float) (id : Z).

(** A connection: the file as committed, the table as this connection sees
    it (with the changes of its open transaction), and the statements it
    has executed. *)
Record connection : Type := mk_conn
  { committed : table;
    current : table;
    log : list statement }.

(** An INTEGER of the store is a signed 64-bit integer. *)
Definition in_int64 (z : Z) : bool :=
  (-9223372036854775808 <=? z) && (z <=? 9223372036854775807).

(** Binding a Python float: a NaN is bound as NULL. *)
Definition bind_float (f : spec_float) : option spec_float :=
  match f with
  | S754_nan => None
  | _ => Some f
  end.

(** [CHECK (cantidad >= 0)] and [CHECK (precio >= 0)]. *)
Definition check_cantidad (c : Z) : bool := 0 <=? c.
Definition check_precio (p : spec_float) : bool := SFleb (S754_zero false) p.

Fixpoint row_lookup (i : Z) (t : table) : option row :=
  match t with
  | [] => None
  | r :: t' => if i =? col_id r then Some r else row_lookup i t'
  end.

(** The new row goes to its place in the order of [id]. *)
Fixpoint insert_row (r : row) (t : table) : table :=
  match t with
  | [] => [r]
  | r' :: t' =>
      if col_id r <? col_id r' then r :: t else r' :: insert_row r t'
  end.

Definition has_id (i : Z) (t : table) : bool :=
  existsb (fun r => col_id r =? i) t.

(** [INSERT INTO productos (id, nombre, cantidad, precio) VALUES (?,?,?,?)]
    on bound values: NOT NULL, the two CHECKs, then the primary key. *)
Definition run_insert (i : Z) (n : string) (c : Z) (p : option spec_float)
    (t : table) : exn + table :=
  match p with
  | None => inl IntegrityError
  | Some v =>
      if negb (check_cantidad c) then inl IntegrityError
      else if negb (check_precio v) then inl IntegrityError
      else if has_id i t then inl IntegrityError
      else inr (insert_row (mk_row i n c v) t)
  end.

(** [DELETE FROM productos WHERE id = ?] *)
Definition run_delete (i : Z) (t : table) : table :=
  filter (fun r => negb (col_id r =? i)) t.

(** [UPDATE productos SET cantidad = ? WHERE id = ?]: the CHECK is
    evaluated on the rows the statement changes. *)
Definition set_cantidad_where (c : Z) (i : Z) (r : row) : row :=
  if col_id r =? i then mk_row (col_id r) (col_nombre r) c (col_precio r)
  else r.

Definition run_update_cantidad (c : Z) (i : Z) (t : table) : exn + table :=
  if has_id i t && negb (check_cantidad c) then inl IntegrityError
  else inr (map (set_cantidad_where c i) t).

(** [UPDATE productos SET precio = ? WHERE id = ?] *)
Definition set_precio_where (v : spec_float) (i : Z) (r : row) : row :=
  if col_id r =? i then mk_row (col_id r) (col_nombre r) (col_cantidad r) v
  else r.

Definition run_update_precio (p : option spec_float) (i : Z) (t : table)
    : exn + table :=
  if has_id i t then
    match p with
    | None => inl IntegrityError
    | Some v =>
        if negb (check_precio v) then inl IntegrityError
        else inr (map (set_precio_where v i) t)
    end
  else inr t.

(** [sqlite3.connect(db_path)] on a file that holds [file]; a file or a
    table that does not exist yet reads as the empty table, which is what
    [CREATE TABLE IF NOT EXISTS] makes of it. *)
Definition connect (file : table) : connection := mk_conn file file [].

Definition changed (s : statement) (t : table) (c : connection)
    : connection :=
  mk_conn (committed c) t (log c ++ [s]).

(** [conn.execute(sql, params)]: the parameters are bound first (an
    integer out of range raises [OverflowError]), then the statement runs;
    a statement that fails changes nothing. The result is the connection
    after the statement and the rows of its cursor. *)
Definition execute (s : statement) (c : connection)
    : exn + (connection * list row) :=
  match s with
  | PragmaForeignKeysOn | CreateTableIfNotExists =>
      inr (changed s (current c) c, [])
  | SelectOrderById =>
      inr (changed s (current c) c, current c)
  | Insert i n q p =>
      if in_int64 i && in_int64 q then
        match run_insert i n q (bind_float p) (current c) with
        | inl e => inl e
        | inr t => inr (changed s t c, [])
        end
      else inl OverflowError
  | Delete i =>
      if in_int64 i then inr (changed s (run_delete i (current c)) c, [])
      else inl OverflowError
  | UpdateCantidad q i =>
      if in_int64 q && in_int64 i then
        match run_update_cantidad q i (current c) with
        | inl e => inl e
        | inr t => inr (changed s t c, [])
        end
      else inl OverflowError
  | UpdatePrecio p i =>
      if in_int64 i then
        match run_update_precio (bind_float p) i (current c) with
        | inl e => inl e
        | inr t => inr (changed s t c, [])
        end
      else inl OverflowError
  end.

(** [conn.commit()] *)
Definition commit (c : connection) : connection :=
  mk_conn (current c) (current c) (log c).

(** [conn.close()]: what stays in the file. *)
Definition close (c : connection) : table := committed c.

End Sqlite.

(** ** The [Inventario] object and the Python heap around it *)

Record Inventario : Type := mkInventario
  { conn : Sqlite.connection;
    productos : dict }.

Record world : Type := mkWorld
  { objects : heap;
    self : Inventario }.

(** A method: it returns or raises, in a new world; [None] when it reads a
    reference that names no object. *)
Definition M (A : Type) : Type := world -> option (outcome A * world).

Definition ret {A : Type} (a : A) : M A := fun w => Some (Return a, w).

Definition raise {A : Type} (e : exn) : M A := fun w => Some (Raise e, w).

Definition bind {A B : Type} (m : M A) (k : A -> M B) : M B :=
  fun w =>
    match m w with
    | None => None
    | Some (Return a, w') => k a w'
    | Some (Raise e, w') => Some (Raise e, w')
    end.

Notation "x <- m ;; k" := (bind m (fun x => k))
  (at level 61, m at next level, right associativity).
Notation "m ;; k" := (bind m (fun _ => k))
  (at level 61, right associativity).

(** [try: m except e: handler]; what [m] did before it raised stays. *)
Definition try_except {A : Type} (m : M A) (e : exn) (handler : M A) : M A :=
  fun w =>
    match m w with
    | Some (Raise e', w') =>
        if exn_eqb e' e then handler w' else Some (Raise e', w')
    | r => r
    end.

(** Reading the attributes of the object behind a reference. *)
Definition read (r : ref) : M Producto.t :=
  fun w =>
    match deref (objects w) r with
    | Some p => Some (Return p, w)
    | None => None
    end.

(** Calling a setter on the object behind a reference. *)
Definition call_setter (r : ref) (setter : Producto.t -> Producto.t)
    : M unit :=
  fun w =>
    match deref (objects w) r with
    | Some p =>
        Some (Return tt, mkWorld (store (objects w) r (setter p)) (self w))
    | None => None
    end.

(** [Producto(...)] *)
Definition new (p : Producto.t) : M ref :=
  fun w =>
    let (r, h) := alloc (objects w) p in
    Some (Return r, mkWorld h (self w)).

(** [self.conn.execute(...)] and [self.conn.commit()] *)
Definition conn_execute (s : Sqlite.statement) : M (list Sqlite.row) :=
  fun w =>
    match Sqlite.execute s (conn (self w)) with
    | inl e => Some (Raise e, w)
    | inr (c, rows) =>
        Some (Return rows,
              mkWorld (objects w) (mkInventario c (productos (self w))))
    end.

Definition conn_commit : M unit :=
  fun w =>
    Some (Return tt,
          mkWorld (objects w)
            (mkInventario (Sqlite.commit (conn (self w)))
                          (productos (self w)))).

(** [self.productos] read, and changed in place. *)
Definition get_productos : M dict :=
  fun w => Some (Return (productos (self w)), w).

Definition update_productos (f : dict -> dict) : M unit :=
  fun w =>
    Some (Return tt,
          mkWorld (objects w)
            (mkInventario (conn (self w)) (f (productos (self w))))).

(** [self.productos[k]] *)
Definition productos_getitem (k : Z) : M ref :=
  d <- get_productos ;;
  match dict_get k d with
  | Some r => ret r
  | None => raise KeyError
  end.

(** [for x in l: body(x)] *)
Fixpoint for_each {A : Type} (l : list A) (body : A -> M unit) : M unit :=
  match l with
  | [] => ret tt
  | x :: t => body x ;; for_each t body
  end.

(** ** The methods of [Inventario] *)

Definition _crear_tabla_si_no_existe : M unit :=
  conn_execute Sqlite.CreateTableIfNotExists ;;
  conn_commit.

Definition _cargar_desde_bd : M unit :=
  update_productos (fun _ => []) ;;
  rows <- conn_execute Sqlite.SelectOrderById ;;
  for_each rows (fun row =>
    p <- new (Producto.mk (Sqlite.col_id row) (Sqlite.col_nombre row)
                          (Sqlite.col_cantidad row) (Sqlite.col_precio row)) ;;
    o <- read p ;;
    update_productos (dict_set (Producto.id o) p)).

(** [Inventario(db_path)], on the file behind [db_path] and the heap of
    the process. *)
Definition __init__ (file : Sqlite.table) (h : heap)
    : option (outcome unit * world) :=
  (conn_execute Sqlite.PragmaForeignKeysOn ;;
   _crear_tabla_si_no_existe ;;
   update_productos (fun _ => []) ;;
   _cargar_desde_bd)
    (mkWorld h (mkInventario (Sqlite.connect file) [])).

Definition _existe_id (id_ : Z) : M bool :=
  d <- get_productos ;;
  ret (dict_contains id_ d).

Definition agregar_producto (producto : ref) : M bool :=
  p <- read producto ;;
  existe <- _existe_id (Producto.id p) ;;
  if existe then ret false
  else
    try_except
      (conn_execute
              (Sqlite.Insert (Producto.id p) (Producto.nombre p)
                             (Producto.cantidad p) (Producto.precio p)) ;;
       conn_commit ;;
       update_productos (dict_set (Producto.id p) producto) ;;
       ret true)
      IntegrityError
      (ret false).

Definition eliminar_producto (id_ : Z) : M bool :=
  existe <- _existe_id id_ ;;
  if negb existe then ret false
  else
    conn_execute (Sqlite.Delete id_) ;;
    conn_commit ;;
    update_productos (dict_pop id_) ;;
    ret true.

Definition actualizar_cantidad (id_ : Z) (nueva_cantidad : Z) : M bool :=
  existe <- _existe_id id_ ;;
  if negb existe then ret false
  else
    conn_execute (Sqlite.UpdateCantidad nueva_cantidad id_) ;;
    conn_commit ;;
    r <- productos_getitem id_ ;;
    call_setter r (fun p => Producto.set_cantidad p nueva_cantidad) ;;
    ret true.

Definition actualizar_precio (id_ : Z) (nuevo_precio : spec_float) : M bool :=
  existe <- _existe_id id_ ;;
  if negb existe then ret false
  else
    conn_execute (Sqlite.UpdatePrecio nuevo_precio id_) ;;
    conn_commit ;;
    r <- productos_getitem id_ ;;
    call_setter r (fun p => Producto.set_precio p nuevo_precio) ;;
    ret true.

(** [[p for p in refs if keep(p)]] *)
Fixpoint select_objects (keep : Producto.t -> bool) (h : heap)
    (refs : list ref) : option (list ref) :=
  match refs with
  | [] => Some []
  | r :: t =>
      match deref h r, select_objects keep h t with
      | Some p, Some l => Some (if keep p then r :: l else l)
      | _, _ => None
      end
  end.

Definition buscar_por_nombre (nombre : string) : M (list ref) :=
  let nombre_norm := PyStr.lower (PyStr.strip nombre) in
  fun w =>
    match select_objects
            (fun p => PyStr.contains nombre_norm
                        (PyStr.lower (Producto.nombre p)))
            (objects w) (dict_values (productos (self w))) with
    | Some l => Some (Return l, w)
    | None => None
    end.

Definition listar_todos : M (list ref) :=
  d <- get_productos ;;
  ret (dict_values d).

(** [cerrar]: the connection is closed, the file stays. *)
Definition cerrar (w : world) : Sqlite.table := Sqlite.close (conn (self w)).

(** ** [cargar_ejemplo_neos] *)

Definition ejemplos : list Producto.t :=
  [ Producto.mk 101 "Harina 1kg" 20
      (S754_finite false 5629499534213120 (-51))            (* 2.50 *)
  ; Producto.mk 102 "Queso Mozzarella 1kg" 15
      (S754_finite false 6755399441055744 (-50))            (* 6.00 *)
  ; Producto.mk 103 "Salsa de Tomate 500g" 30
      (S754_finite false 8106479329266893 (-52))            (* 1.80 *)
  ; Producto.mk 104 "Orégano 50g" 40
      (S754_finite false 4503599627370496 (-53))            (* 0.50 *)
  ; Producto.mk 105 "Caja para Pizza (mediana)" 200
      (S754_finite false 5404319552844595 (-54))            (* 0.30 *)
  ; Producto.mk 106 "Aceite 1L" 10
      (S754_finite false 7205759403792794 (-51))            (* 3.20 *)
  ; Producto.mk 107 "Bebida 1.5L" 50
      (S754_finite false 6755399441055744 (-52))            (* 1.50 *)
  ; Producto.mk 108 "Pepperoni 500g" 12
      (S754_finite false 4503599627370496 (-50))            (* 4.00 *)
  ].

(** [[Producto(...), ...]]: the objects of a list literal, in order. *)
Fixpoint new_all (ps : list Producto.t) : M (list ref) :=
  match ps with
  | [] => ret []
  | p :: t =>
      r <- new p ;;
      rs <- new_all t ;;
      ret (r :: rs)
  end.

(** The message printed at the end goes to the console and is left out. *)
Definition cargar_ejemplo_neos : M unit :=
  todos <- listar_todos ;;
  match todos with
  | _ :: _ => ret tt
  | [] =>
      refs <- new_all ejemplos ;;
      for_each refs (fun p => agregar_producto p ;; ret tt)
  end.

(** ** What the claims speak about *)

(** The product the mapping holds for an identifier. *)
Definition view (w : world) (k : Z) : option Producto.t :=
  match dict_get k (productos (self w)) with
  | Some r => deref (objects w) r
  | None => None
  end.

(** The row that stores a product. *)
Definition row_of (p : Producto.t) : Sqlite.row :=
  Sqlite.mk_row (Producto.id p) (Producto.nombre p)
                (Producto.cantidad p) (Producto.precio p).

(** The product a row is loaded as, and the dictionary that loading the
    rows builds when the first new object gets reference [n]. *)
Definition producto_of (row : Sqlite.row) : Producto.t :=
  Producto.mk (Sqlite.col_id row) (Sqlite.col_nombre row)
              (Sqlite.col_cantidad row) (Sqlite.col_precio row).

Fixpoint loaded (n : ref) (rows : list Sqlite.row) : dict :=
  match rows with
  | [] => []
  | row :: t => (Sqlite.col_id row, n) :: loaded (S n) t
  end.

(** The mapping and the file hold the same identifiers, with the same
    name, quantity and price for each. *)
Definition agrees (w : world) : Prop :=
  forall k : Z,
    Sqlite.row_lookup k (Sqlite.committed (conn (self w)))
    = option_map row_of (view w k).

(** What the schema keeps true of a row, and of the table. *)
Definition row_ok (r : Sqlite.row) : Prop :=
  Sqlite.in_int64 (Sqlite.col_id r) = true
  /\ Sqlite.in_int64 (Sqlite.col_cantidad r) = true
  /\ Sqlite.check_cantidad (Sqlite.col_cantidad r) = true
  /\ Sqlite.check_precio (Sqlite.col_precio r) = true.

Fixpoint ascending (t : Sqlite.table) : Prop :=
  match t with
  | [] => True
  | r :: t' =>
      (forall r', In r' t' -> Sqlite.col_id r < Sqlite.col_id r')
      /\ ascending t'
  end.

Definition table_ok (t : Sqlite.table) : Prop :=
  ascending t /\ Forall row_ok t.

(** The state the repository keeps between two calls: the keys of the
    dictionary are distinct, each key names an object that carries that
    identifier, the table of the connection holds exactly these products,
    and nothing is left uncommitted. *)
Record Inv (w : world) : Prop := mkInv
  { inv_keys : NoDup (dict_keys (productos (self w)));
    inv_entries :
      forall k r, In (k, r) (productos (self w)) ->
        exists p, deref (objects w) r = Some p /\ Producto.id p = k;
    inv_agree :
      forall k,
        Sqlite.row_lookup k (Sqlite.current (conn (self w)))
        = option_map row_of (view w k);
    inv_committed :
      Sqlite.committed (conn (self w)) = Sqlite.current (conn (self w));
    inv_table : table_ok (Sqlite.current (conn (self w))) }.

(** The references of a result that name a product with identifier [i]. *)
Definition with_id (h : heap) (i : Z) (l : list ref) : list ref :=
  filter (fun r =>
            match deref h r with
            | Some p => Producto.id p =? i
            | None => false
            end) l.

(** The objects of [h] are those of [h'], with their identifiers and
    names: what a setter of quantity or price leaves as it is. *)
Definition same_identity (h h' : heap) : Prop :=
  List.length h' = List.length h
  /\ forall r p, deref h r = Some p ->
       exists p', deref h' r = Some p'
                  /\ Producto.id p' = Producto.id p
                  /\ Producto.nombre p' = Producto.nombre p.


(** A caller's calls on the repository, one after the other; a caller
    that catches an exception goes on with the next call. *)
Inductive call : Type :=
| Agregar (producto : ref)
| Eliminar (id_ : Z)
| ActualizarCantidad (id_ : Z) (nueva_cantidad : Z)
| ActualizarPrecio (id_ : Z) (nuevo_precio : spec_float)
| Buscar (nombre : string)
| Listar.

Definition after {A : Type} (r : option (outcome A * world)) : option world :=
  match r with
  | Some (_, w) => Some w
  | None => None
  end.

Definition perform (c : call) (w : world) : option world :=
  match c with
  | Agregar producto => after (agregar_producto producto w)
  | Eliminar id_ => after (eliminar_producto id_ w)
  | ActualizarCantidad id_ q => after (actualizar_cantidad id_ q w)
  | ActualizarPrecio id_ v => after (actualizar_precio id_ v w)
  | Buscar nombre => after (buscar_por_nombre nombre w)
  | Listar => after (listar_todos w)
  end.

Fixpoint run (cs : list call) (w : world) : option world :=
  match cs with
  | [] => Some w
  | c :: t =>
      match perform c w with
      | Some w' => run t w'
      | None => None
      end
  end.

(** The product a call passes is an object of the heap. *)
Definition call_ok (h : heap) (c : call) : Prop :=
  match c with
  | Agregar producto => (producto < List.length h)%nat
  | _ => True
  end.

(** The call adds a product with identifier [i]. *)
Definition adds (h : heap) (i : Z) (c : call) : Prop :=
  match c with
  | Agregar producto =>
      exists p, deref h producto = Some p /\ Producto.id p = i
  | _ => False
  end.

(** The statement that inserts a product, and the world after the object
    behind [r], which reads [p], was added; after the objects of a list
    literal were, the first of them behind [r]. *)
Definition insert_of (p : Producto.t) : Sqlite.statement :=
  Sqlite.Insert (Producto.id p) (Producto.nombre p)
                (Producto.cantidad p) (Producto.precio p).

Definition added_one (p : Producto.t) (r : ref) (w : world) : world :=
  mkWorld (objects w)
    (mkInventario
       (Sqlite.commit
          (Sqlite.changed (insert_of p)
             (Sqlite.insert_row (row_of p) (Sqlite.current (conn (self w))))
             (conn (self w))))
       (dict_set (Producto.id p) r (productos (self w)))).

Fixpoint added_all (ps : list Producto.t) (r : ref) (w : world) : world :=
  match ps with
  | [] => w
  | p :: t => added_all t (S r) (added_one p r w)
  end.

(** Worlds to try the methods on: the repository opened on an empty file
    in a process whose heap holds the objects [h], and the repository
    after [cargar_ejemplo_neos] on an empty file and an empty heap. *)
Definition inicial (h : heap) : world :=
  mkWorld h
    (mkInventario
       (Sqlite.mk_conn [] []
          [Sqlite.PragmaForeignKeysOn; Sqlite.CreateTableIfNotExists;
           Sqlite.SelectOrderById])
       []).

Definition sembrado : world :=
  added_all ejemplos 0%nat (mkWorld ejemplos (self (inicial []))).

Definition harina : Producto.t :=
  Producto.mk 101 "Harina 1kg" 20 (S754_finite false 5629499534213120 (-51)).

(** A product with a negative quantity, and one with a negative price. *)
Definition levadura : Producto.t :=
  Producto.mk 200 "Levadura 500g" (-1)
    (S754_finite false 4503599627370496 (-52)).

Definition albahaca : Producto.t :=
  Producto.mk 201 "Albahaca 50g" 5
    (S754_finite true 4503599627370496 (-52)).

(** A caller that adds a product, gives the same object another
    identifier, adds it again and then updates the first identifier:
    nothing of this is done by the program's own [main]. *)
Definition caller_script : M bool :=
  agregar_producto 0%nat ;;
  call_setter 0%nat (fun p => Producto.set_id p 102) ;;
  agregar_producto 0%nat ;;
  actualizar_cantidad 101 5.

(** [actualizar_cantidad] and [actualizar_precio] written out: they differ
    in their statement and in their setter. *)
Definition actualizar (stmt : Sqlite.statement)
    (setter : Producto.t -> Producto.t) (id_ : Z) (w : world)
    : option (outcome bool * world) :=
  if dict_contains id_ (productos (self w)) then
    match Sqlite.execute stmt (conn (self w)) with
    | inl e => Some (Raise e, w)
    | inr (c, _) =>
        let w1 :=
          mkWorld (objects w)
            (mkInventario (Sqlite.commit c) (productos (self w))) in
        match dict_get id_ (productos (self w)) with
        | None => Some (Raise KeyError, w1)
        | Some r =>
            match deref (objects w) r with
            | None => None
            | Some p =>
                Some (Return true,
                      mkWorld (store (objects w) r (setter p)) (self w1))
            end
        end
    end
  else Some (Return false, w).

(** ** The console: [pedir_int], [pedir_float], [imprimir_producto],
    [menu] and [main]

    The input is the list of the lines still to be read, the output the
    list of what was written: an entry for each [print] (its text, without
    the line end) and for each prompt of [input]. [closed] counts the calls
    of [cerrar]. A [KeyboardInterrupt] is not modelled. *)

Inductive console_exn : Type :=
| FromInventario (e : exn)   (* an exception that left a method *)
| EOFError.                  (* [input()] at the end of the input *)

Inductive ended (A : Type) : Type :=
| Done (a : A)
| Failed (e : console_exn).

Arguments Done {A} a.
Arguments Failed {A} e.

Record console : Type := mkConsole
  { mundo : world;
    stdin : list string;
    stdout : list string;
    closed : nat }.

Definition IO (A : Type) : Type := console -> option (ended A * console).

Definition io_ret {A : Type} (a : A) : IO A := fun c => Some (Done a, c).

Definition io_bind {A B : Type} (m : IO A) (k : A -> IO B) : IO B :=
  fun c =>
    match m c with
    | None => None
    | Some (Done a, c') => k a c'
    | Some (Failed e, c') => Some (Failed e, c')
    end.

Declare Scope io_scope.
Delimit Scope io_scope with io.

Notation "x <- m ;; k" := (io_bind m (fun x => k))
  (at level 61, m at next level, right associativity) : io_scope.
Notation "m ;; k" := (io_bind m (fun _ => k))
  (at level 61, right associativity) : io_scope.

(** A method of the repository, called from the console. *)
Definition lift {A : Type} (m : M A) : IO A :=
  fun c =>
    match m (mundo c) with
    | None => None
    | Some (Return a, w) =>
        Some (Done a, mkConsole w (stdin c) (stdout c) (closed c))
    | Some (Raise e, w) =>
        Some (Failed (FromInventario e),
              mkConsole w (stdin c) (stdout c) (closed c))
    end.

(** [print(s)] *)
Definition print (s : string) : IO unit :=
  fun c =>
    Some (Done tt, mkConsole (mundo c) (stdin c) (stdout c ++ [s]) (closed c)).

(** [input(prompt)]: the prompt is written, then a line is read. *)
Definition input (prompt : string) : IO string :=
  fun c =>
    match stdin c with
    | [] =>
        Some (Failed EOFError,
              mkConsole (mundo c) [] (stdout c ++ [prompt]) (closed c))
    | line :: rest =>
        Some (Done line,
              mkConsole (mundo c) rest (stdout c ++ [prompt]) (closed c))
    end.

(** [while True: body]: a body that ends in [Some a] leaves the loop with
    [a] (a [return], a [break]), one that ends in [None] goes round again.
    Every round of the loops of the program reads a line, so the lines
    that are left bound the rounds. *)
Fixpoint while_fuel {A : Type} (fuel : nat) (body : IO (option A)) : IO A :=
  match fuel with
  | O => fun _ => None
  | S n =>
      fun c =>
        match body c with
        | None => None
        | Some (Failed e, c') => Some (Failed e, c')
        | Some (Done (Some a), c') => Some (Done a, c')
        | Some (Done None, c') => while_fuel n body c'
        end
  end.

Definition while_true {A : Type} (body : IO (option A)) : IO A :=
  fun c => while_fuel (S (List.length (stdin c))) body c.

(** [for x in l: body(x)] *)
Fixpoint io_for_each {A : Type} (l : list A) (body : A -> IO unit)
    : IO unit :=
  match l with
  | [] => io_ret tt
  | x :: t => io_bind (body x) (fun _ => io_for_each t body)
  end.

(** [try: body finally: cleanup] *)
Definition try_finally {A : Type} (body : IO A) (cleanup : IO unit) : IO A :=
  fun c =>
    match body c with
    | None => None
    | Some (r, c') =>
        match cleanup c' with
        | None => None
        | Some (Done _, c'') => Some (r, c'')
        | Some (Failed e, c'') => Some (Failed e, c'')
        end
    end.

(** [inventario.cerrar()] *)
Definition cerrar_io : IO unit :=
  fun c =>
    Some (Done tt,
          mkConsole (mundo c) (stdin c) (stdout c) (S (closed c))).

(** The line end, [str(n)] for an integer and [f"{x:.2f}"] for a float:
    the exact value [m * 2^e] in hundredths, rounded to the nearest
    integer, a tie to the even one. *)
Definition nl : string := String (ascii_of_nat 10) EmptyString.

Definition str_int (z : Z) : string := NilZero.string_of_int (Z.to_int z).

Definition two_digits (n : Z) : string :=
  if n <? 10 then ("0" ++ str_int n)%string else str_int n.

Definition hundredths (m : positive) (e : Z) : Z :=
  if 0 <=? e then Z.pos m * 2 ^ e * 100
  else
    let d := 2 ^ (- e) in
    let q := (Z.pos m * 100) / d in
    let r := (Z.pos m * 100) mod d in
    if 2 * r <? d then q
    else if d <? 2 * r then q + 1
    else if Z.even q then q else q + 1.

Definition format_2f (x : spec_float) : string :=
  match x with
  | S754_nan => "nan"
  | S754_infinity s => if s then "-inf" else "inf"
  | S754_zero s => if s then "-0.00" else "0.00"
  | S754_finite s m e =>
      ((if s then "-" else "")
       ++ str_int (hundredths m e / 100) ++ "."
       ++ two_digits (hundredths m e mod 100))%string
  end.

Section Console.

(** [int(s)] and [float(s)] of Python: [None] where they raise
    [ValueError]. *)
Variable py_int : string -> option Z.
Variable py_float : string -> option spec_float.

Local Open Scope io_scope.

Definition pedir_int (mensaje : string) : IO Z :=
  while_true
    (linea <- input mensaje ;;
     match py_int linea with
     | Some n => io_ret (Some n)
     | None => print "Debe ser un número entero." ;; io_ret None
     end).

Definition pedir_float (mensaje : string) : IO spec_float :=
  while_true
    (linea <- input mensaje ;;
     match py_float linea with
     | Some x => io_ret (Some x)
     | None => print "Debe ser un número decimal (usa punto)." ;; io_ret None
     end).

Definition imprimir_producto (p : ref) : IO unit :=
  o <- lift (read p) ;;
  print ("ID: " ++ str_int (Producto.id o)
         ++ " | Nombre: " ++ Producto.nombre o
         ++ " | Cantidad: " ++ str_int (Producto.cantidad o)
         ++ " | Precio: $" ++ format_2f (Producto.precio o))%string.

Definition menu : IO unit :=
  print (nl ++ "=== INVENTARIO NEOS PIZZA ===")%string ;;
  print "1) Añadir producto" ;;
  print "2) Eliminar producto por ID" ;;
  print "3) Actualizar cantidad" ;;
  print "4) Actualizar precio" ;;
  print "5) Buscar por nombre" ;;
  print "6) Mostrar todos" ;;
  print "0) Salir".

(** [cargar_ejemplo_neos] with its message, which is printed when the
    mapping was empty and the examples were added. *)
Definition cargar_ejemplo_neos_io : IO unit :=
  todos <- lift listar_todos ;;
  lift cargar_ejemplo_neos ;;
  match todos with
  | _ :: _ => io_ret tt
  | [] =>
      print ("✔ Inventario inicial de NEOS Pizza cargado con productos de ejemplo."
             ++ nl)%string
  end.

(** What the loop of [main] does with the option that was read:
    [Some tt] is the [break]. *)
Definition main_opcion (opcion : string) : IO (option unit) :=
  if String.eqb opcion "1" then
    print (nl ++ "[AÑADIR PRODUCTO]")%string ;;
    id_ <- pedir_int "ID: " ;;
    linea <- input "Nombre: " ;;
    let nombre := PyStr.strip linea in
    cantidad <- pedir_int "Cantidad: " ;;
    precio <- pedir_float "Precio: " ;;
    nuevo <- lift (new (Producto.mk id_ nombre cantidad precio)) ;;
    ok <- lift (agregar_producto nuevo) ;;
    (if ok : bool then print "✔ Producto agregado."
     else print "✖ No se pudo agregar (ID duplicado).") ;;
    io_ret None
  else if String.eqb opcion "2" then
    id_ <- pedir_int "ID a eliminar: " ;;
    ok <- lift (eliminar_producto id_) ;;
    (if ok : bool then print "✔ Producto eliminado."
     else print "✖ ID no encontrado.") ;;
    io_ret None
  else if String.eqb opcion "3" then
    id_ <- pedir_int "ID: " ;;
    nueva_cantidad <- pedir_int "Nueva cantidad: " ;;
    ok <- lift (actualizar_cantidad id_ nueva_cantidad) ;;
    (if ok : bool then print "✔ Cantidad actualizada."
     else print "✖ ID no encontrado.") ;;
    io_ret None
  else if String.eqb opcion "4" then
    id_ <- pedir_int "ID: " ;;
    nuevo_precio <- pedir_float "Nuevo precio: " ;;
    ok <- lift (actualizar_precio id_ nuevo_precio) ;;
    (if ok : bool then print "✔ Precio actualizado."
     else print "✖ ID no encontrado.") ;;
    io_ret None
  else if String.eqb opcion "5" then
    nombre <- input "Buscar nombre: " ;;
    resultados <- lift (buscar_por_nombre nombre) ;;
    match resultados with
    | _ :: _ => io_for_each resultados imprimir_producto
    | [] => print "No se encontraron productos."
    end ;;
    io_ret None
  else if String.eqb opcion "6" then
    productos <- lift listar_todos ;;
    match productos with
    | _ :: _ => io_for_each productos imprimir_producto
    | [] => print "Inventario vacío."
    end ;;
    io_ret None
  else if String.eqb opcion "0" then
    print "Saliendo..." ;;
    io_ret (Some tt)
  else
    print "Opción inválida." ;;
    io_ret None.

(** One round of the loop of [main]. *)
Definition main_round : IO (option unit) :=
  menu ;;
  linea <- input "Selecciona una opción: " ;;
  main_opcion (PyStr.strip linea).

(** [main()], on the file behind [DB_PATH], the heap of the process and the
    lines of the input. *)
Definition main (file : Sqlite.table) (h : heap) (entrada : list string)
    : option (ended unit * console) :=
  match __init__ file h with
  | None => None
  | Some (Raise e, w) =>
      Some (Failed (FromInventario e), mkConsole w entrada [] 0)
  | Some (Return _, w) =>
      (cargar_ejemplo_neos_io ;;
       try_finally (while_true main_round) cerrar_io)
        (mkConsole w entrada [] 0)
  end.

End Console.





(** Stand-ins for [int] and [float] to run the console on: they read plain
    decimal numerals, with a sign, and nothing else. *)
Fixpoint digits_value (s : string) (acc : Z) : option Z :=
  match s with
  | EmptyString => Some acc
  | String c t =>
      if (48 <=? PyStr.code c) && (PyStr.code c <=? 57)
      then digits_value t (10 * acc + (PyStr.code c - 48))
      else None
  end.

Definition int_numeral (s : string) : option Z :=
  match s with
  | EmptyString => None
  | String "-" (String c t) => option_map Z.opp (digits_value (String c t) 0)
  | _ => digits_value s 0
  end.

Definition float_numeral (s : string) : option spec_float :=
  match int_numeral s with
  | None => None
  | Some 0 => Some (S754_zero false)
  | Some (Z.pos m) => Some (S754_finite false m 0)
  | Some (Z.neg m) => Some (S754_finite true m 0)
  end.

(** * Facts about the model *)

(** ** The dictionary *)

Lemma dict_get_In (k : Z) (r : ref) (d : dict) :
  dict_get k d = Some r -> In (k, r) d.
Proof.
  induction d as [|[k' v] t IH]; simpl; [discriminate|].
  destruct (Z.eqb_spec k k') as [->|_]; intros H.
  - injection H as ->. now left.
  - right. now apply IH.
Qed.

Lemma dict_get_None (k : Z) (d : dict) :
  dict_get k d = None <-> ~ In k (dict_keys d).
Proof.
  induction d as [|[k' v] t IH]; simpl.
  - tauto.
  - destruct (Z.eqb_spec k k') as [->|Hne].
    + split; [discriminate | intros H; exfalso; apply H; now left].
    + rewrite IH. split; intros H; [intros [E|E]; congruence | tauto].
Qed.

Lemma In_dict_keys (k : Z) (r : ref) (d : dict) :
  In (k, r) d -> In k (dict_keys d).
Proof. intros H. apply (in_map fst) in H. exact H. Qed.

Lemma In_dict_get (k : Z) (r : ref) (d : dict) :
  NoDup (dict_keys d) -> In (k, r) d -> dict_get k d = Some r.
Proof.
  induction d as [|[k' v] t IH]; simpl; [tauto|].
  intros Hnd [E|Hin].
  - injection E as -> ->. now rewrite Z.eqb_refl.
  - inversion Hnd as [|? ? Hnotin Hnd']; subst.
    destruct (Z.eqb_spec k k') as [->|_].
    + exfalso. apply Hnotin. eapply In_dict_keys; eauto.
    + now apply IH.
Qed.

Lemma dict_contains_true (k : Z) (d : dict) :
  dict_contains k d = true <-> exists r, dict_get k d = Some r.
Proof.
  unfold dict_contains. destruct (dict_get k d) as [r|].
  - split; eauto.
  - split; [discriminate | intros [r H]; discriminate].
Qed.

Lemma dict_contains_false (k : Z) (d : dict) :
  dict_contains k d = false <-> dict_get k d = None.
Proof.
  unfold dict_contains. destruct (dict_get k d); split; congruence.
Qed.

Lemma dict_get_set (k k' : Z) (v : ref) (d : dict) :
  dict_get k' (dict_set k v d) = if k' =? k then Some v else dict_get k' d.
Proof.
  induction d as [|[k0 v0] t IH]; simpl.
  - reflexivity.
  - destruct (Z.eqb_spec k k0) as [->|Hne]; simpl.
    + destruct (Z.eqb_spec k' k0); reflexivity.
    + destruct (Z.eqb_spec k' k0) as [->|Hne'].
      * destruct (Z.eqb_spec k0 k); [congruence | reflexivity].
      * exact IH.
Qed.

Lemma dict_set_fresh (k : Z) (v : ref) (d : dict) :
  dict_get k d = None -> dict_set k v d = d ++ [(k, v)].
Proof.
  induction d as [|[k0 v0] t IH]; simpl; [reflexivity|].
  destruct (Z.eqb_spec k k0); [discriminate|].
  intros H. now rewrite IH.
Qed.

Lemma dict_pop_In (k k' : Z) (r : ref) (d : dict) :
  In (k', r) (dict_pop k d) -> In (k', r) d.
Proof.
  induction d as [|[k0 v0] t IH]; simpl; [tauto|].
  destruct (Z.eqb_spec k k0); simpl; [tauto|].
  intros [E|H]; [now left | right; now apply IH].
Qed.

Lemma In_dict_pop (k k' : Z) (r : ref) (d : dict) :
  In (k', r) d -> k' <> k -> In (k', r) (dict_pop k d).
Proof.
  induction d as [|[k0 v0] t IH]; simpl; [tauto|].
  intros [E|H] Hne.
  - injection E as -> ->.
    destruct (Z.eqb_spec k k'); [congruence | now left].
  - destruct (Z.eqb_spec k k0); [exact H | right; now apply IH].
Qed.

Lemma dict_pop_keys (k k' : Z) (d : dict) :
  In k' (dict_keys (dict_pop k d)) -> In k' (dict_keys d).
Proof.
  unfold dict_keys. rewrite !in_map_iff.
  intros [[k0 r] [E H]]. exists (k0, r). split; [exact E|].
  eapply dict_pop_In; eauto.
Qed.

Lemma dict_pop_NoDup (k : Z) (d : dict) :
  NoDup (dict_keys d) -> NoDup (dict_keys (dict_pop k d)).
Proof.
  induction d as [|[k0 v0] t IH]; simpl; [trivial|].
  intros Hnd. inversion Hnd as [|? ? Hnotin Hnd']; subst.
  destruct (Z.eqb_spec k k0); [exact Hnd'|].
  simpl. constructor; [|now apply IH].
  intros H. apply Hnotin. eapply dict_pop_keys; eauto.
Qed.

Lemma dict_get_pop (k k' : Z) (d : dict) :
  NoDup (dict_keys d) ->
  dict_get k' (dict_pop k d) = if k' =? k then None else dict_get k' d.
Proof.
  induction d as [|[k0 v0] t IH]; simpl; intros Hnd.
  - now destruct (k' =? k).
  - inversion Hnd as [|? ? Hnotin Hnd']; subst.
    destruct (Z.eqb_spec k k0) as [->|Hne]; simpl.
    + destruct (Z.eqb_spec k' k0) as [->|_]; [|reflexivity].
      now apply dict_get_None.
    + destruct (Z.eqb_spec k' k0) as [->|Hne'].
      * destruct (Z.eqb_spec k0 k); [congruence | reflexivity].
      * now apply IH.
Qed.

Lemma dict_set_fresh_NoDup (k : Z) (v : ref) (d : dict) :
  dict_get k d = None -> NoDup (dict_keys d) ->
  NoDup (dict_keys (dict_set k v d)).
Proof.
  intros Hk Hnd. rewrite (dict_set_fresh _ _ _ Hk).
  unfold dict_keys. rewrite map_app. simpl.
  apply NoDup_app; [exact Hnd | repeat constructor; intros [] |].
  intros a Ha [<-|[]]. revert Ha. now apply dict_get_None.
Qed.

(** ** The heap *)

Lemma deref_lt (h : heap) (r : ref) :
  (r < List.length h)%nat <-> exists p, deref h r = Some p.
Proof.
  unfold deref. split.
  - intros H. destruct (nth_error h r) eqn:E; [eauto|].
    apply nth_error_None in E. lia.
  - intros [p H]. apply nth_error_Some. congruence.
Qed.

Lemma store_length (h : heap) (r : ref) (p : Producto.t) :
  List.length (store h r p) = List.length h.
Proof.
  revert r. induction h as [|x t IH]; intros [|r]; simpl; auto.
Qed.

Lemma deref_store_same (h : heap) (r : ref) (p q : Producto.t) :
  deref h r = Some q -> deref (store h r p) r = Some p.
Proof.
  unfold deref. revert r.
  induction h as [|x t IH]; intros [|r]; simpl; try discriminate; auto.
Qed.

Lemma deref_store_other (h : heap) (r r' : ref) (p : Producto.t) :
  r' <> r -> deref (store h r p) r' = deref h r'.
Proof.
  unfold deref. revert r r'.
  induction h as [|x t IH]; intros [|r] [|r'] Hne; simpl; auto;
    congruence.
Qed.


Lemma deref_app_new (h : heap) (p : Producto.t) (l : heap) :
  deref (h ++ p :: l) (List.length h) = Some p.
Proof.
  unfold deref. rewrite nth_error_app2 by lia.
  now rewrite Nat.sub_diag.
Qed.

Lemma same_identity_refl (h : heap) : same_identity h h.
Proof. split; [reflexivity | eauto]. Qed.

Lemma same_identity_trans (h1 h2 h3 : heap) :
  same_identity h1 h2 -> same_identity h2 h3 -> same_identity h1 h3.
Proof.
  intros [L1 H1] [L2 H2]. split; [congruence|].
  intros r p Hp. destruct (H1 r p Hp) as (p' & Hp' & Hi & Hn).
  destruct (H2 r p' Hp') as (p'' & Hp'' & Hi' & Hn').
  exists p''. repeat split; congruence.
Qed.

Lemma same_identity_store (h : heap) (r : ref) (p q : Producto.t) :
  deref h r = Some p ->
  Producto.id q = Producto.id p -> Producto.nombre q = Producto.nombre p ->
  same_identity h (store h r q).
Proof.
  intros Hr Hi Hn. split; [apply store_length|].
  intros r0 p0 Hp0. destruct (Nat.eq_dec r0 r) as [->|Hne].
  - exists q. rewrite (deref_store_same h r q p Hr).
    repeat split; congruence.
  - exists p0. now rewrite deref_store_other.
Qed.

Lemma same_identity_back (h h' : heap) (r : ref) (p' : Producto.t) :
  same_identity h h' -> deref h' r = Some p' ->
  exists p, deref h r = Some p
            /\ Producto.id p = Producto.id p'
            /\ Producto.nombre p = Producto.nombre p'.
Proof.
  intros [L H] Hp'.
  assert (Hlt : (r < List.length h)%nat).
  { rewrite <- L. apply deref_lt. eauto. }
  apply deref_lt in Hlt as [p Hp]. exists p.
  destruct (H r p Hp) as (p'' & Hp'' & Hi & Hn).
  repeat split; congruence.
Qed.

(** ** The table *)

Lemma has_id_lookup (i : Z) (t : Sqlite.table) :
  Sqlite.has_id i t = true <-> exists r, Sqlite.row_lookup i t = Some r.
Proof.
  induction t as [|r t IH]; simpl.
  - split; [discriminate | intros [r H]; discriminate].
  - rewrite (Z.eqb_sym (Sqlite.col_id r) i).
    destruct (Z.eqb_spec i (Sqlite.col_id r)); simpl.
    + split; eauto.
    + exact IH.
Qed.

Lemma has_id_false (i : Z) (t : Sqlite.table) :
  Sqlite.has_id i t = false <-> Sqlite.row_lookup i t = None.
Proof.
  destruct (Sqlite.has_id i t) eqn:E.
  - apply has_id_lookup in E as [r ->]. split; discriminate.
  - split; [|trivial]. intros _.
    destruct (Sqlite.row_lookup i t) eqn:E'; [|reflexivity].
    assert (Sqlite.has_id i t = true) by (apply has_id_lookup; eauto).
    congruence.
Qed.

Lemma row_lookup_id (i : Z) (t : Sqlite.table) (r : Sqlite.row) :
  Sqlite.row_lookup i t = Some r -> Sqlite.col_id r = i /\ In r t.
Proof.
  induction t as [|r' t IH]; simpl; [discriminate|].
  destruct (Z.eqb_spec i (Sqlite.col_id r')) as [->|_].
  - intros H. injection H as ->. split; [reflexivity | now left].
  - intros H. destruct (IH H). split; [assumption | now right].
Qed.

Lemma row_lookup_insert (k : Z) (r : Sqlite.row) (t : Sqlite.table) :
  Sqlite.row_lookup (Sqlite.col_id r) t = None ->
  Sqlite.row_lookup k (Sqlite.insert_row r t)
  = if k =? Sqlite.col_id r then Some r else Sqlite.row_lookup k t.
Proof.
  induction t as [|r' t IH]; simpl.
  - reflexivity.
  - destruct (Z.eqb_spec (Sqlite.col_id r) (Sqlite.col_id r')) as [E|Hne];
      [discriminate|].
    intros Hnone.
    destruct (Sqlite.col_id r <? Sqlite.col_id r'); simpl.
    + reflexivity.
    + destruct (Z.eqb_spec k (Sqlite.col_id r')) as [->|Hne'].
      * destruct (Z.eqb_spec (Sqlite.col_id r') (Sqlite.col_id r));
          [congruence | reflexivity].
      * now apply IH.
Qed.

Lemma row_lookup_delete (k i : Z) (t : Sqlite.table) :
  Sqlite.row_lookup k (Sqlite.run_delete i t)
  = if k =? i then None else Sqlite.row_lookup k t.
Proof.
  unfold Sqlite.run_delete.
  induction t as [|r t IH]; simpl.
  - now destruct (k =? i).
  - destruct (Z.eqb_spec (Sqlite.col_id r) i) as [E|Hne]; simpl.
    + rewrite IH. destruct (Z.eqb_spec k i) as [->|Hne]; [reflexivity|].
      destruct (Z.eqb_spec k (Sqlite.col_id r)); [congruence | reflexivity].
    + destruct (Z.eqb_spec k (Sqlite.col_id r)) as [->|Hne'].
      * destruct (Z.eqb_spec (Sqlite.col_id r) i); [congruence | reflexivity].
      * exact IH.
Qed.

Lemma row_lookup_map (f : Sqlite.row -> Sqlite.row) (k : Z)
    (t : Sqlite.table) :
  (forall r, Sqlite.col_id (f r) = Sqlite.col_id r) ->
  Sqlite.row_lookup k (map f t) = option_map f (Sqlite.row_lookup k t).
Proof.
  intros Hf. induction t as [|r t IH]; simpl; [reflexivity|].
  rewrite Hf. destruct (k =? Sqlite.col_id r); [reflexivity | exact IH].
Qed.

Lemma In_insert_row (x r : Sqlite.row) (t : Sqlite.table) :
  In x (Sqlite.insert_row r t) <-> x = r \/ In x t.
Proof.
  induction t as [|y t IH]; simpl.
  - split; [intros [<-|[]]; now left | intros [->|[]]; now left].
  - destruct (Sqlite.col_id r <? Sqlite.col_id y); simpl.
    + split; [intros [<-|H]; auto | intros [->|H]; auto].
    + rewrite IH. split; [intros [<-|[->|H]]; auto | intros [->|[<-|H]]; auto].
Qed.

Lemma ascending_insert (r : Sqlite.row) (t : Sqlite.table) :
  Sqlite.row_lookup (Sqlite.col_id r) t = None ->
  ascending t -> ascending (Sqlite.insert_row r t).
Proof.
  induction t as [|r' t IH]; simpl.
  - intros _ _. split; [intros ? []| exact I].
  - destruct (Z.eqb_spec (Sqlite.col_id r) (Sqlite.col_id r')) as [E|Hne];
      [discriminate|].
    intros Hnone [Hlt Hasc].
    destruct (Z.ltb_spec (Sqlite.col_id r) (Sqlite.col_id r')) as [Hl|Hg];
      simpl.
    + split; [|split; assumption].
      intros x [<-|Hx]; [exact Hl|]. specialize (Hlt x Hx). lia.
    + split; [|now apply IH].
      intros x Hx. apply In_insert_row in Hx as [->|Hx];
        [lia | now apply Hlt].
Qed.

Lemma ascending_filter (f : Sqlite.row -> bool) (t : Sqlite.table) :
  ascending t -> ascending (filter f t).
Proof.
  induction t as [|r t IH]; simpl; [trivial|].
  intros [Hlt Hasc]. destruct (f r); simpl; [|now apply IH].
  split; [|now apply IH].
  intros x Hx. apply filter_In in Hx as [Hx _]. now apply Hlt.
Qed.

Lemma ascending_map (f : Sqlite.row -> Sqlite.row) (t : Sqlite.table) :
  (forall r, Sqlite.col_id (f r) = Sqlite.col_id r) ->
  ascending t -> ascending (map f t).
Proof.
  intros Hf. induction t as [|r t IH]; simpl; [trivial|].
  intros [Hlt Hasc]. split; [|now apply IH].
  intros x Hx. apply in_map_iff in Hx as [y [<- Hy]].
  rewrite !Hf. now apply Hlt.
Qed.

Lemma ascending_lookup (r : Sqlite.row) (t : Sqlite.table) :
  ascending t -> In r t -> Sqlite.row_lookup (Sqlite.col_id r) t = Some r.
Proof.
  induction t as [|r' t IH]; simpl; [tauto|].
  intros [Hlt Hasc] [->|Hin].
  - now rewrite Z.eqb_refl.
  - specialize (Hlt r Hin).
    destruct (Z.eqb_spec (Sqlite.col_id r) (Sqlite.col_id r')); [lia|].
    now apply IH.
Qed.

(** ** The methods, call by call *)

Arguments Sqlite.execute : simpl never.

Ltac unfold_methods :=
  unfold agregar_producto, eliminar_producto, actualizar_cantidad,
    actualizar_precio, listar_todos, _existe_id, productos_getitem,
    try_except, bind, ret, raise, read, call_setter, conn_execute,
    conn_commit, get_productos, update_productos; simpl.

Lemma agregar_producto_eq (producto : ref) (w : world) :
  agregar_producto producto w =
  match deref (objects w) producto with
  | None => None
  | Some p =>
      if dict_contains (Producto.id p) (productos (self w))
      then Some (Return false, w)
      else
        match Sqlite.execute
                (Sqlite.Insert (Producto.id p) (Producto.nombre p)
                               (Producto.cantidad p) (Producto.precio p))
                (conn (self w)) with
        | inl IntegrityError => Some (Return false, w)
        | inl e => Some (Raise e, w)
        | inr (c, _) =>
            Some (Return true,
                  mkWorld (objects w)
                    (mkInventario (Sqlite.commit c)
                       (dict_set (Producto.id p) producto
                                 (productos (self w)))))
        end
  end.
Proof.
  unfold_methods.
  destruct (deref (objects w) producto) as [p|]; [|reflexivity].
  destruct (dict_contains (Producto.id p) (productos (self w)));
    [reflexivity|].
  destruct (Sqlite.execute _ _) as [[]|[c rows]]; reflexivity.
Qed.

Lemma eliminar_producto_eq (id_ : Z) (w : world) :
  eliminar_producto id_ w =
  if dict_contains id_ (productos (self w)) then
    match Sqlite.execute (Sqlite.Delete id_) (conn (self w)) with
    | inl e => Some (Raise e, w)
    | inr (c, _) =>
        Some (Return true,
              mkWorld (objects w)
                (mkInventario (Sqlite.commit c)
                              (dict_pop id_ (productos (self w)))))
    end
  else Some (Return false, w).
Proof.
  unfold_methods.
  destruct (dict_contains id_ (productos (self w))); [|reflexivity].
  simpl. destruct (Sqlite.execute _ _) as [e|[c rows]]; reflexivity.
Qed.

Lemma actualizar_cantidad_eq (id_ nueva_cantidad : Z) (w : world) :
  actualizar_cantidad id_ nueva_cantidad w =
  actualizar (Sqlite.UpdateCantidad nueva_cantidad id_)
    (fun p => Producto.set_cantidad p nueva_cantidad) id_ w.
Proof.
  unfold actualizar. unfold_methods.
  destruct (dict_contains id_ (productos (self w))); [|reflexivity].
  simpl. destruct (Sqlite.execute _ _) as [e|[c rows]]; [reflexivity|].
  simpl. destruct (dict_get id_ (productos (self w))) as [r|]; [|reflexivity].
  simpl. destruct (deref (objects w) r); reflexivity.
Qed.

Lemma actualizar_precio_eq (id_ : Z) (nuevo_precio : spec_float)
    (w : world) :
  actualizar_precio id_ nuevo_precio w =
  actualizar (Sqlite.UpdatePrecio nuevo_precio id_)
    (fun p => Producto.set_precio p nuevo_precio) id_ w.
Proof.
  unfold actualizar. unfold_methods.
  destruct (dict_contains id_ (productos (self w))); [|reflexivity].
  simpl. destruct (Sqlite.execute _ _) as [e|[c rows]]; [reflexivity|].
  simpl. destruct (dict_get id_ (productos (self w))) as [r|]; [|reflexivity].
  simpl. destruct (deref (objects w) r); reflexivity.
Qed.

(** ** The statements, by their result *)

Lemma check_precio_bind (p : spec_float) :
  Sqlite.check_precio p = true -> Sqlite.bind_float p = Some p.
Proof. destruct p; simpl; try reflexivity; discriminate. Qed.

Lemma bind_float_Some (p v : spec_float) :
  Sqlite.bind_float p = Some v -> v = p.
Proof. destruct p; simpl; congruence. Qed.

Lemma execute_insert_inr (i : Z) (n : string) (q : Z) (p : spec_float)
    (c c' : Sqlite.connection) (rows : list Sqlite.row) :
  Sqlite.execute (Sqlite.Insert i n q p) c = inr (c', rows) ->
  Sqlite.in_int64 i = true /\ Sqlite.in_int64 q = true
  /\ Sqlite.check_cantidad q = true /\ Sqlite.check_precio p = true
  /\ Sqlite.row_lookup i (Sqlite.current c) = None
  /\ c' = Sqlite.changed (Sqlite.Insert i n q p)
            (Sqlite.insert_row (Sqlite.mk_row i n q p) (Sqlite.current c)) c.
Proof.
  unfold Sqlite.execute, Sqlite.run_insert.
  destruct (Sqlite.in_int64 i), (Sqlite.in_int64 q); simpl; try discriminate.
  destruct (Sqlite.bind_float p) as [v|] eqn:Hb; [|discriminate].
  apply bind_float_Some in Hb. subst v.
  destruct (Sqlite.check_cantidad q); simpl; [|discriminate].
  destruct (Sqlite.check_precio p); simpl; [|discriminate].
  destruct (Sqlite.has_id i (Sqlite.current c)) eqn:Hid; [discriminate|].
  apply has_id_false in Hid.
  intros H. injection H as <- _. auto 10.
Qed.

Lemma execute_insert_ok (i : Z) (n : string) (q : Z) (p : spec_float)
    (c : Sqlite.connection) :
  Sqlite.in_int64 i = true -> Sqlite.in_int64 q = true ->
  Sqlite.check_cantidad q = true -> Sqlite.check_precio p = true ->
  Sqlite.row_lookup i (Sqlite.current c) = None ->
  Sqlite.execute (Sqlite.Insert i n q p) c
  = inr (Sqlite.changed (Sqlite.Insert i n q p)
           (Sqlite.insert_row (Sqlite.mk_row i n q p) (Sqlite.current c)) c,
         []).
Proof.
  intros Hi Hq Hc Hp Hl.
  unfold Sqlite.execute, Sqlite.run_insert.
  rewrite Hi, Hq, (check_precio_bind _ Hp), Hc, Hp. simpl.
  apply has_id_false in Hl. now rewrite Hl.
Qed.

Lemma execute_delete_ok (i : Z) (c : Sqlite.connection) :
  Sqlite.in_int64 i = true ->
  Sqlite.execute (Sqlite.Delete i) c
  = inr (Sqlite.changed (Sqlite.Delete i)
           (Sqlite.run_delete i (Sqlite.current c)) c, []).
Proof. intros Hi. unfold Sqlite.execute. now rewrite Hi. Qed.

Lemma execute_update_cantidad_inr (q i : Z) (c c' : Sqlite.connection)
    (rows : list Sqlite.row) :
  Sqlite.execute (Sqlite.UpdateCantidad q i) c = inr (c', rows) ->
  Sqlite.in_int64 q = true
  /\ (Sqlite.has_id i (Sqlite.current c) = true ->
      Sqlite.check_cantidad q = true)
  /\ c' = Sqlite.changed (Sqlite.UpdateCantidad q i)
            (map (Sqlite.set_cantidad_where q i) (Sqlite.current c)) c.
Proof.
  unfold Sqlite.execute, Sqlite.run_update_cantidad.
  destruct (Sqlite.in_int64 q), (Sqlite.in_int64 i); simpl; try discriminate.
  destruct (Sqlite.has_id i (Sqlite.current c)),
    (Sqlite.check_cantidad q); simpl; try discriminate;
    intros H; injection H as <- _; auto.
Qed.

Lemma execute_update_cantidad_ok (q i : Z) (c : Sqlite.connection) :
  Sqlite.in_int64 q = true -> Sqlite.in_int64 i = true ->
  Sqlite.check_cantidad q = true ->
  Sqlite.execute (Sqlite.UpdateCantidad q i) c
  = inr (Sqlite.changed (Sqlite.UpdateCantidad q i)
           (map (Sqlite.set_cantidad_where q i) (Sqlite.current c)) c, []).
Proof.
  intros Hq Hi Hc. unfold Sqlite.execute, Sqlite.run_update_cantidad.
  rewrite Hq, Hi, Hc. simpl. now rewrite andb_false_r.
Qed.

Lemma execute_update_precio_inr (v : spec_float) (i : Z)
    (c c' : Sqlite.connection) (rows : list Sqlite.row) :
  Sqlite.has_id i (Sqlite.current c) = true ->
  Sqlite.execute (Sqlite.UpdatePrecio v i) c = inr (c', rows) ->
  Sqlite.check_precio v = true
  /\ c' = Sqlite.changed (Sqlite.UpdatePrecio v i)
            (map (Sqlite.set_precio_where v i) (Sqlite.current c)) c.
Proof.
  intros Hid. unfold Sqlite.execute, Sqlite.run_update_precio.
  destruct (Sqlite.in_int64 i); simpl; try discriminate.
  rewrite Hid.
  destruct (Sqlite.bind_float v) as [v'|] eqn:Hb; [|discriminate].
  apply bind_float_Some in Hb. subst v'.
  destruct (Sqlite.check_precio v); simpl; try discriminate.
  intros H; injection H as <- _; auto.
Qed.

Lemma execute_update_precio_ok (v : spec_float) (i : Z)
    (c : Sqlite.connection) :
  Sqlite.in_int64 i = true -> Sqlite.check_precio v = true ->
  Sqlite.has_id i (Sqlite.current c) = true ->
  Sqlite.execute (Sqlite.UpdatePrecio v i) c
  = inr (Sqlite.changed (Sqlite.UpdatePrecio v i)
           (map (Sqlite.set_precio_where v i) (Sqlite.current c)) c, []).
Proof.
  intros Hi Hv Hid. unfold Sqlite.execute, Sqlite.run_update_precio.
  now rewrite Hi, Hid, (check_precio_bind _ Hv), Hv.
Qed.

(** A statement that raises leaves no trace; one that runs is logged. *)
Lemma execute_log (s : Sqlite.statement) (c c' : Sqlite.connection)
    (rows : list Sqlite.row) :
  Sqlite.execute s c = inr (c', rows) ->
  Sqlite.log c' = Sqlite.log c ++ [s]
  /\ Sqlite.committed c' = Sqlite.committed c.
Proof.
  unfold Sqlite.execute. destruct s; simpl;
    repeat match goal with
      | |- context [if ?b then _ else _] => destruct b; simpl
      | |- context [match ?x with inl _ => _ | inr _ => _ end] =>
          destruct x; simpl
      end;
    try discriminate; intros H; injection H as <- _; auto.
Qed.

(** ** The invariant, change by change *)

Lemma Inv_entry (w : world) (k : Z) (r : ref) :
  Inv w -> dict_get k (productos (self w)) = Some r ->
  exists p, deref (objects w) r = Some p /\ Producto.id p = k.
Proof.
  intros HI Hk. apply (inv_entries w HI). now apply dict_get_In.
Qed.

Lemma Inv_view (w : world) (k : Z) (p : Producto.t) :
  Inv w -> view w k = Some p -> Producto.id p = k.
Proof.
  intros HI. unfold view.
  destruct (dict_get k (productos (self w))) as [r|] eqn:Hk; [|discriminate].
  destruct (Inv_entry w k r HI Hk) as [p' [Hp' Hid]]. congruence.
Qed.

Lemma Inv_has_id (w : world) (k : Z) :
  Inv w ->
  Sqlite.has_id k (Sqlite.current (conn (self w)))
  = dict_contains k (productos (self w)).
Proof.
  intros HI. pose proof (inv_agree w HI k) as Ha. unfold view in Ha.
  unfold dict_contains.
  destruct (dict_get k (productos (self w))) as [r|] eqn:Hk.
  - destruct (Inv_entry w k r HI Hk) as [p [Hp _]].
    rewrite Hp in Ha. apply has_id_lookup. eauto.
  - now apply has_id_false.
Qed.

Lemma Inv_insert (w : world) (r : ref) (p : Producto.t)
    (lg : list Sqlite.statement) :
  Inv w -> deref (objects w) r = Some p ->
  dict_get (Producto.id p) (productos (self w)) = None ->
  row_ok (row_of p) ->
  Inv (mkWorld (objects w)
         (mkInventario
            (Sqlite.mk_conn
               (Sqlite.insert_row (row_of p) (Sqlite.current (conn (self w))))
               (Sqlite.insert_row (row_of p) (Sqlite.current (conn (self w))))
               lg)
            (dict_set (Producto.id p) r (productos (self w))))).
Proof.
  intros [Hk He Ha Hc [Hasc Hok]] Hr Hfresh Hrow.
  assert (Hnone : Sqlite.row_lookup (Sqlite.col_id (row_of p))
                    (Sqlite.current (conn (self w))) = None).
  { simpl. rewrite Ha. unfold view. now rewrite Hfresh. }
  constructor; simpl.
  - now apply dict_set_fresh_NoDup.
  - intros k r0 Hin. rewrite (dict_set_fresh _ _ _ Hfresh) in Hin.
    apply in_app_or in Hin as [Hin|[E|[]]]; [now apply He|].
    injection E as <- <-. eauto.
  - intros k. rewrite (row_lookup_insert _ _ _ Hnone). simpl.
    unfold view. simpl. rewrite dict_get_set.
    destruct (k =? Producto.id p); [now rewrite Hr | apply Ha].
  - reflexivity.
  - split; [now apply ascending_insert|].
    apply Forall_forall. intros x Hx.
    apply In_insert_row in Hx as [->|Hx]; [exact Hrow|].
    revert x Hx. now apply Forall_forall.
Qed.

Lemma Inv_delete (w : world) (i : Z) (lg : list Sqlite.statement) :
  Inv w ->
  Inv (mkWorld (objects w)
         (mkInventario
            (Sqlite.mk_conn
               (Sqlite.run_delete i (Sqlite.current (conn (self w))))
               (Sqlite.run_delete i (Sqlite.current (conn (self w))))
               lg)
            (dict_pop i (productos (self w))))).
Proof.
  intros [Hk He Ha Hc [Hasc Hok]].
  constructor; simpl.
  - now apply dict_pop_NoDup.
  - intros k r Hin. apply He. eapply dict_pop_In; eauto.
  - intros k. rewrite row_lookup_delete. unfold view. simpl.
    rewrite (dict_get_pop _ _ _ Hk).
    destruct (k =? i); [reflexivity | apply Ha].
  - reflexivity.
  - split; [now apply ascending_filter|].
    apply Forall_forall. intros x Hx.
    apply filter_In in Hx as [Hx _]. revert x Hx. now apply Forall_forall.
Qed.

Section Update.

Variables (i : Z) (f : Producto.t -> Producto.t)
          (g : Sqlite.row -> Sqlite.row).
Hypothesis f_id : forall x, Producto.id (f x) = Producto.id x.
Hypothesis g_id : forall x, Sqlite.col_id (g x) = Sqlite.col_id x.
Hypothesis g_f : forall x, Producto.id x = i -> g (row_of x) = row_of (f x).
Hypothesis g_other : forall x, Sqlite.col_id x <> i -> g x = x.

(** What the mapping holds after the object behind [i] went through [f]. *)
Lemma view_update (w : world) (r : ref) (p : Producto.t)
    (c : Sqlite.connection) (k : Z) :
  Inv w -> dict_get i (productos (self w)) = Some r ->
  deref (objects w) r = Some p ->
  view (mkWorld (store (objects w) r (f p))
          (mkInventario c (productos (self w)))) k
  = if k =? i then Some (f p) else view w k.
Proof.
  intros HI Hi Hr. unfold view. simpl.
  destruct (Z.eqb_spec k i) as [->|Hne].
  - rewrite Hi. eapply deref_store_same; eauto.
  - destruct (dict_get k (productos (self w))) as [r0|] eqn:Hk;
      [|reflexivity].
    apply deref_store_other. intros ->.
    destruct (Inv_entry w k r HI Hk) as [p1 [Hp1 Hid1]].
    destruct (Inv_entry w i r HI Hi) as [p2 [Hp2 Hid2]].
    congruence.
Qed.

Lemma Inv_update (w : world) (r : ref) (p : Producto.t)
    (lg : list Sqlite.statement) :
  (forall x, row_ok x -> row_ok (g x)) ->
  Inv w -> dict_get i (productos (self w)) = Some r ->
  deref (objects w) r = Some p ->
  Inv (mkWorld (store (objects w) r (f p))
         (mkInventario
            (Sqlite.mk_conn (map g (Sqlite.current (conn (self w))))
                            (map g (Sqlite.current (conn (self w)))) lg)
            (productos (self w)))).
Proof.
  intros g_ok HI Hi Hr.
  pose proof (fun c k => view_update w r p c k HI Hi Hr) as Hview.
  destruct (Inv_entry w i r HI Hi) as [p' [Hp' Hidp]].
  assert (p' = p) by congruence. subst p'.
  destruct HI as [Hk He Ha Hc [Hasc Hok]].
  constructor; simpl.
  - exact Hk.
  - intros k r0 Hin. destruct (Nat.eq_dec r0 r) as [->|Hne].
    + exists (f p). split; [eapply deref_store_same; eauto|].
      rewrite f_id. destruct (He _ _ Hin) as [p1 [Hp1 Hid1]]. congruence.
    + rewrite deref_store_other by exact Hne. now apply He.
  - intros k. rewrite Hview, (row_lookup_map g k _ g_id), Ha.
    destruct (Z.eqb_spec k i) as [->|Hne].
    + unfold view. rewrite Hi, Hr. simpl. now rewrite g_f.
    + destruct (view w k) as [p0|] eqn:Hv; [|reflexivity]. simpl.
      rewrite g_other; [reflexivity|]. simpl.
      unfold view in Hv.
      destruct (dict_get k (productos (self w))) as [r0|] eqn:Hk0;
        [|discriminate].
      apply dict_get_In in Hk0. destruct (He _ _ Hk0) as [p1 [Hp1 Hid1]].
      congruence.
  - reflexivity.
  - split; [now apply ascending_map|].
    apply Forall_map. revert Hok. apply Forall_impl. exact g_ok.
Qed.

End Update.

Lemma Inv_stored_id (w : world) (k : Z) :
  Inv w -> dict_contains k (productos (self w)) = true ->
  Sqlite.in_int64 k = true.
Proof.
  intros HI Hk. rewrite <- (Inv_has_id w k HI) in Hk.
  apply has_id_lookup in Hk as [row Hrow].
  apply row_lookup_id in Hrow as [<- Hin].
  destruct (inv_table w HI) as [_ Hok].
  rewrite Forall_forall in Hok. now destruct (Hok row Hin).
Qed.

Lemma set_cantidad_where_ok (q i : Z) (x : Sqlite.row) :
  Sqlite.in_int64 q = true -> Sqlite.check_cantidad q = true ->
  row_ok x -> row_ok (Sqlite.set_cantidad_where q i x).
Proof.
  intros Hq Hc (H1 & H2 & H3 & H4). unfold Sqlite.set_cantidad_where.
  destruct (Sqlite.col_id x =? i); repeat split; auto.
Qed.

Lemma set_precio_where_ok (v : spec_float) (i : Z) (x : Sqlite.row) :
  Sqlite.check_precio v = true ->
  row_ok x -> row_ok (Sqlite.set_precio_where v i x).
Proof.
  intros Hv (H1 & H2 & H3 & H4). unfold Sqlite.set_precio_where.
  destruct (Sqlite.col_id x =? i); repeat split; auto.
Qed.

(** *** [agregar_producto] *)

Lemma agregar_producto_fresh (w : world) (producto : ref) (p : Producto.t) :
  Inv w -> deref (objects w) producto = Some p ->
  dict_contains (Producto.id p) (productos (self w)) = false ->
  row_ok (row_of p) ->
  agregar_producto producto w = Some (Return true, added_one p producto w).
Proof.
  intros HI Hr Hfresh (H1 & H2 & H3 & H4). simpl in *.
  rewrite agregar_producto_eq, Hr, Hfresh.
  rewrite execute_insert_ok; auto.
  apply has_id_false. now rewrite (Inv_has_id w _ HI).
Qed.

Lemma agregar_producto_Inv (w w' : world) (producto : ref)
    (o : outcome bool) :
  Inv w -> agregar_producto producto w = Some (o, w') ->
  Inv w' /\ objects w' = objects w.
Proof.
  intros HI. rewrite agregar_producto_eq.
  destruct (deref (objects w) producto) as [p|] eqn:Hr; [|discriminate].
  destruct (dict_contains _ _) eqn:Hc.
  { intros H. injection H as <- <-. auto. }
  destruct (Sqlite.execute _ _) as [e|[c rows]] eqn:Hx.
  { destruct e; intros H; injection H as <- <-; auto. }
  intros H. injection H as <- <-.
  apply execute_insert_inr in Hx as (H1 & H2 & H3 & H4 & _ & ->).
  split; [|reflexivity]. simpl.
  apply (Inv_insert w producto p); auto.
  - now apply dict_contains_false.
  - repeat split; assumption.
Qed.

Lemma agregar_producto_defined (w : world) (producto : ref) :
  (producto < List.length (objects w))%nat ->
  exists o w', agregar_producto producto w = Some (o, w').
Proof.
  intros H. apply deref_lt in H as [p Hp].
  rewrite agregar_producto_eq, Hp.
  destruct (dict_contains _ _); [eauto|].
  destruct (Sqlite.execute _ _) as [[]|[c rows]]; eauto.
Qed.

(** *** [eliminar_producto] *)

Lemma eliminar_producto_present (w : world) (id_ : Z) :
  Inv w -> dict_contains id_ (productos (self w)) = true ->
  eliminar_producto id_ w
  = Some (Return true,
          mkWorld (objects w)
            (mkInventario
               (Sqlite.commit
                  (Sqlite.changed (Sqlite.Delete id_)
                     (Sqlite.run_delete id_ (Sqlite.current (conn (self w))))
                     (conn (self w))))
               (dict_pop id_ (productos (self w))))).
Proof.
  intros HI Hc. rewrite eliminar_producto_eq, Hc.
  now rewrite execute_delete_ok by (eapply Inv_stored_id; eauto).
Qed.

Lemma eliminar_producto_absent (w : world) (id_ : Z) :
  dict_contains id_ (productos (self w)) = false ->
  eliminar_producto id_ w = Some (Return false, w).
Proof. intros Hc. now rewrite eliminar_producto_eq, Hc. Qed.

Lemma eliminar_producto_Inv (w w' : world) (id_ : Z) (o : outcome bool) :
  Inv w -> eliminar_producto id_ w = Some (o, w') ->
  Inv w' /\ objects w' = objects w.
Proof.
  intros HI.
  destruct (dict_contains id_ (productos (self w))) eqn:Hc.
  - rewrite (eliminar_producto_present w id_ HI Hc).
    intros H. injection H as <- <-. split; [|reflexivity].
    simpl. now apply Inv_delete.
  - rewrite (eliminar_producto_absent w id_ Hc).
    intros H. injection H as <- <-. auto.
Qed.

(** *** [actualizar_cantidad] and [actualizar_precio] *)

Lemma actualizar_absent (stmt : Sqlite.statement)
    (setter : Producto.t -> Producto.t) (id_ : Z) (w : world) :
  dict_contains id_ (productos (self w)) = false ->
  actualizar stmt setter id_ w = Some (Return false, w).
Proof. intros Hc. unfold actualizar. now rewrite Hc. Qed.

Lemma actualizar_present (stmt : Sqlite.statement)
    (setter : Producto.t -> Producto.t) (id_ : Z) (w : world) :
  Inv w -> dict_contains id_ (productos (self w)) = true ->
  exists r p,
    dict_get id_ (productos (self w)) = Some r
    /\ deref (objects w) r = Some p /\ Producto.id p = id_
    /\ actualizar stmt setter id_ w
       = match Sqlite.execute stmt (conn (self w)) with
         | inl e => Some (Raise e, w)
         | inr (c, _) =>
             Some (Return true,
                   mkWorld (store (objects w) r (setter p))
                     (mkInventario (Sqlite.commit c) (productos (self w))))
         end.
Proof.
  intros HI Hc. unfold actualizar. rewrite Hc.
  apply dict_contains_true in Hc as [r Hr].
  destruct (Inv_entry w id_ r HI Hr) as [p [Hp Hid]].
  exists r, p. rewrite Hr, Hp. repeat split; auto.
Qed.

Lemma actualizar_cantidad_Inv (w w' : world) (id_ q : Z)
    (o : outcome bool) :
  Inv w -> actualizar_cantidad id_ q w = Some (o, w') ->
  Inv w' /\ same_identity (objects w) (objects w').
Proof.
  intros HI. rewrite actualizar_cantidad_eq.
  destruct (dict_contains id_ (productos (self w))) eqn:Hc.
  2:{ rewrite actualizar_absent by exact Hc.
      intros H. injection H as <- <-. auto using same_identity_refl. }
  destruct (actualizar_present (Sqlite.UpdateCantidad q id_)
              (fun p => Producto.set_cantidad p q) id_ w HI Hc)
    as (r & p & Hr & Hp & Hid & ->).
  destruct (Sqlite.execute _ _) as [e|[c rows]] eqn:Hx.
  { intros H. injection H as <- <-. auto using same_identity_refl. }
  intros H. injection H as <- <-.
  apply execute_update_cantidad_inr in Hx as (H1 & H2 & ->).
  rewrite (Inv_has_id w id_ HI) in H2. specialize (H2 Hc).
  simpl. split; [|now apply same_identity_store with (p := p)].
  apply (Inv_update id_ (fun p => Producto.set_cantidad p q)
           (Sqlite.set_cantidad_where q id_)); auto.
  - intros x. unfold Sqlite.set_cantidad_where.
    now destruct (Sqlite.col_id x =? id_).
  - intros x Hx. unfold Sqlite.set_cantidad_where, row_of. simpl.
    rewrite Hx, Z.eqb_refl. now rewrite <- Hx.
  - intros x Hx. unfold Sqlite.set_cantidad_where.
    destruct (Z.eqb_spec (Sqlite.col_id x) id_); [contradiction|reflexivity].
  - intros x. now apply set_cantidad_where_ok.
Qed.

Lemma actualizar_precio_Inv (w w' : world) (id_ : Z) (v : spec_float)
    (o : outcome bool) :
  Inv w -> actualizar_precio id_ v w = Some (o, w') ->
  Inv w' /\ same_identity (objects w) (objects w').
Proof.
  intros HI. rewrite actualizar_precio_eq.
  destruct (dict_contains id_ (productos (self w))) eqn:Hc.
  2:{ rewrite actualizar_absent by exact Hc.
      intros H. injection H as <- <-. auto using same_identity_refl. }
  destruct (actualizar_present (Sqlite.UpdatePrecio v id_)
              (fun p => Producto.set_precio p v) id_ w HI Hc)
    as (r & p & Hr & Hp & Hid & ->).
  destruct (Sqlite.execute _ _) as [e|[c rows]] eqn:Hx.
  { intros H. injection H as <- <-. auto using same_identity_refl. }
  intros H. injection H as <- <-.
  apply execute_update_precio_inr in Hx as (H1 & ->);
    [|now rewrite (Inv_has_id w id_ HI)].
  simpl. split; [|now apply same_identity_store with (p := p)].
  apply (Inv_update id_ (fun p => Producto.set_precio p v)
           (Sqlite.set_precio_where v id_)); auto.
  - intros x. unfold Sqlite.set_precio_where.
    now destruct (Sqlite.col_id x =? id_).
  - intros x Hx. unfold Sqlite.set_precio_where, row_of. simpl.
    rewrite Hx, Z.eqb_refl. now rewrite <- Hx.
  - intros x Hx. unfold Sqlite.set_precio_where.
    destruct (Z.eqb_spec (Sqlite.col_id x) id_); [contradiction|reflexivity].
  - intros x. now apply set_precio_where_ok.
Qed.

(** *** [buscar_por_nombre] and [listar_todos] *)

Lemma select_objects_filter (keep : Producto.t -> bool) (h : heap)
    (refs l : list ref) :
  select_objects keep h refs = Some l ->
  l = filter (fun r => match deref h r with
                       | Some p => keep p
                       | None => false
                       end) refs.
Proof.
  revert l. induction refs as [|r t IH]; simpl; intros l.
  - congruence.
  - destruct (deref h r) as [p|]; [|discriminate].
    destruct (select_objects keep h t) as [l'|]; [|discriminate].
    intros H. injection H as <-. rewrite <- (IH l' eq_refl).
    reflexivity.
Qed.

Lemma select_objects_defined (keep : Producto.t -> bool) (h : heap)
    (refs : list ref) :
  (forall r, In r refs -> exists p, deref h r = Some p) ->
  exists l, select_objects keep h refs = Some l.
Proof.
  induction refs as [|r t IH]; simpl; intros H; [eauto|].
  destruct (H r (or_introl eq_refl)) as [p ->].
  destruct IH as [l ->]; [intros; apply H; now right|]. eauto.
Qed.

Lemma Inv_values (w : world) (r : ref) :
  Inv w -> In r (dict_values (productos (self w))) ->
  exists p, deref (objects w) r = Some p
            /\ In (Producto.id p, r) (productos (self w)).
Proof.
  intros HI Hin. unfold dict_values in Hin.
  apply in_map_iff in Hin as [[k r'] [E Hin]]. simpl in E. subst r'.
  destruct (inv_entries w HI k r Hin) as [p [Hp Hid]].
  exists p. now rewrite Hid.
Qed.

Lemma buscar_por_nombre_eq (nombre : string) (w : world) :
  Inv w ->
  buscar_por_nombre nombre w
  = Some (Return
            (filter (fun r =>
                       match deref (objects w) r with
                       | Some p =>
                           PyStr.contains (PyStr.lower (PyStr.strip nombre))
                             (PyStr.lower (Producto.nombre p))
                       | None => false
                       end)
                    (dict_values (productos (self w)))), w).
Proof.
  intros HI. unfold buscar_por_nombre.
  destruct (select_objects_defined
              (fun p => PyStr.contains (PyStr.lower (PyStr.strip nombre))
                          (PyStr.lower (Producto.nombre p)))
              (objects w) (dict_values (productos (self w)))) as [l Hl].
  { intros r Hr. destruct (Inv_values w r HI Hr) as [p [Hp _]]. eauto. }
  rewrite Hl. now rewrite (select_objects_filter _ _ _ _ Hl).
Qed.

Lemma listar_todos_eq (w : world) :
  listar_todos w = Some (Return (dict_values (productos (self w))), w).
Proof. reflexivity. Qed.

(** ** Sequences of calls *)

Lemma perform_Inv (c : call) (w w' : world) :
  Inv w -> perform c w = Some w' ->
  Inv w' /\ same_identity (objects w) (objects w').
Proof.
  intros HI. destruct c as [r|i|i q|i v|s|]; simpl.
  - destruct (agregar_producto r w) as [[o w1]|] eqn:E; [|discriminate].
    intros H. injection H as <-.
    destruct (agregar_producto_Inv _ _ _ _ HI E) as [H1 H2].
    rewrite H2. auto using same_identity_refl.
  - destruct (eliminar_producto i w) as [[o w1]|] eqn:E; [|discriminate].
    intros H. injection H as <-.
    destruct (eliminar_producto_Inv _ _ _ _ HI E) as [H1 H2].
    rewrite H2. auto using same_identity_refl.
  - destruct (actualizar_cantidad i q w) as [[o w1]|] eqn:E; [|discriminate].
    intros H. injection H as <-.
    exact (actualizar_cantidad_Inv _ _ _ _ _ HI E).
  - destruct (actualizar_precio i v w) as [[o w1]|] eqn:E; [|discriminate].
    intros H. injection H as <-.
    exact (actualizar_precio_Inv _ _ _ _ _ HI E).
  - rewrite (buscar_por_nombre_eq s w HI). simpl.
    intros H. injection H as <-. auto using same_identity_refl.
  - intros H. injection H as <-. auto using same_identity_refl.
Qed.

Lemma perform_defined (c : call) (w : world) :
  Inv w -> call_ok (objects w) c -> exists w', perform c w = Some w'.
Proof.
  intros HI Hok. destruct c as [r|i|i q|i v|s|]; simpl in *.
  - destruct (agregar_producto_defined w r Hok) as (o & w' & ->).
    simpl. eauto.
  - rewrite eliminar_producto_eq.
    destruct (dict_contains _ _); [|simpl; eauto].
    destruct (Sqlite.execute _ _) as [e|[c rows]]; simpl; eauto.
  - rewrite actualizar_cantidad_eq.
    destruct (dict_contains i (productos (self w))) eqn:Hc.
    + destruct (actualizar_present (Sqlite.UpdateCantidad q i)
                  (fun p => Producto.set_cantidad p q) i w HI Hc)
        as (r & p & _ & _ & _ & ->).
      destruct (Sqlite.execute _ _) as [e|[c rows]]; simpl; eauto.
    + rewrite actualizar_absent by exact Hc. simpl. eauto.
  - rewrite actualizar_precio_eq.
    destruct (dict_contains i (productos (self w))) eqn:Hc.
    + destruct (actualizar_present (Sqlite.UpdatePrecio v i)
                  (fun p => Producto.set_precio p v) i w HI Hc)
        as (r & p & _ & _ & _ & ->).
      destruct (Sqlite.execute _ _) as [e|[c rows]]; simpl; eauto.
    + rewrite actualizar_absent by exact Hc. simpl. eauto.
  - rewrite (buscar_por_nombre_eq s w HI). simpl. eauto.
  - eauto.
Qed.

Lemma call_ok_same (h h' : heap) (c : call) :
  List.length h' = List.length h -> call_ok h c -> call_ok h' c.
Proof. intros L. destruct c; simpl; auto. now rewrite L. Qed.

Lemma run_Inv (cs : list call) (w w' : world) :
  Inv w -> run cs w = Some w' ->
  Inv w' /\ same_identity (objects w) (objects w').
Proof.
  revert w. induction cs as [|c t IH]; simpl; intros w HI.
  - intros H. injection H as <-. auto using same_identity_refl.
  - destruct (perform c w) as [w1|] eqn:E; [|discriminate].
    destruct (perform_Inv c w w1 HI E) as [HI1 Hs1].
    intros H. destruct (IH w1 HI1 H) as [HI' Hs'].
    split; [exact HI'|]. eapply same_identity_trans; eauto.
Qed.

Lemma run_defined (cs : list call) (w : world) :
  Inv w -> Forall (call_ok (objects w)) cs -> exists w', run cs w = Some w'.
Proof.
  revert w. induction cs as [|c t IH]; simpl; intros w HI Hok; [eauto|].
  inversion Hok as [|? ? Hc Ht]; subst.
  destruct (perform_defined c w HI Hc) as [w1 E]. rewrite E.
  destruct (perform_Inv c w w1 HI E) as [HI1 [L1 _]].
  apply IH; [exact HI1|].
  revert Ht. apply Forall_impl. intros c'. now apply call_ok_same.
Qed.

(** ** Loading the table: [__init__] and [_cargar_desde_bd] *)

Lemma row_of_producto_of (row : Sqlite.row) : row_of (producto_of row) = row.
Proof. now destruct row. Qed.

Lemma producto_of_row_of (p : Producto.t) : producto_of (row_of p) = p.
Proof. now destruct p. Qed.

Lemma dict_get_app (k : Z) (d1 d2 : dict) :
  dict_get k (d1 ++ d2)
  = match dict_get k d1 with
    | Some r => Some r
    | None => dict_get k d2
    end.
Proof.
  induction d1 as [|[k' v] t IH]; simpl; [reflexivity|].
  destruct (k =? k'); [reflexivity | exact IH].
Qed.

Lemma for_each_load (rows : list Sqlite.row) (h : heap)
    (c : Sqlite.connection) (d : dict) :
  (forall row, In row rows -> dict_get (Sqlite.col_id row) d = None) ->
  ascending rows ->
  for_each rows
    (fun row =>
       p <- new (Producto.mk (Sqlite.col_id row) (Sqlite.col_nombre row)
                   (Sqlite.col_cantidad row) (Sqlite.col_precio row)) ;;
       o <- read p ;;
       update_productos (dict_set (Producto.id o) p))
    (mkWorld h (mkInventario c d))
  = Some (Return tt,
          mkWorld (h ++ map producto_of rows)
            (mkInventario c (d ++ loaded (List.length h) rows))).
Proof.
  revert h d. induction rows as [|row t IH]; intros h d Hfresh Hasc.
  - simpl. unfold ret. now rewrite !app_nil_r.
  - destruct Hasc as [Hlt Hasc].
    cbn [for_each]. unfold bind at 1. unfold bind at 1.
    unfold new, alloc. cbn [objects self].
    unfold bind at 1. unfold read at 1. cbn [objects self].
    rewrite (deref_app_new h _ []).
    unfold update_productos at 1. cbn [objects self conn productos].
    cbn [Producto.id].
    rewrite (dict_set_fresh _ _ d) by (apply Hfresh; now left).
    rewrite IH; [ | | exact Hasc].
    + rewrite length_app. simpl. rewrite Nat.add_1_r.
      rewrite <- !app_assoc. reflexivity.
    + intros row' Hin. rewrite dict_get_app.
      rewrite Hfresh by now right. simpl.
      specialize (Hlt row' Hin).
      destruct (Z.eqb_spec (Sqlite.col_id row') (Sqlite.col_id row));
        [lia | reflexivity].
Qed.

Lemma __init___eq (file : Sqlite.table) (h : heap) :
  ascending file ->
  __init__ file h
  = Some (Return tt,
          mkWorld (h ++ map producto_of file)
            (mkInventario
               (Sqlite.mk_conn file file
                  [Sqlite.PragmaForeignKeysOn; Sqlite.CreateTableIfNotExists;
                   Sqlite.SelectOrderById])
               (loaded (List.length h) file))).
Proof.
  intros Hasc. unfold __init__, _crear_tabla_si_no_existe, _cargar_desde_bd.
  unfold bind at 1. unfold conn_execute at 1. simpl.
  unfold bind at 1. unfold bind at 1. unfold conn_execute at 1. simpl.
  unfold bind at 1. unfold bind at 1. unfold bind at 1.
  unfold conn_execute at 1. simpl.
  now rewrite for_each_load.
Qed.

Lemma loaded_keys (n : ref) (rows : list Sqlite.row) :
  dict_keys (loaded n rows) = map Sqlite.col_id rows.
Proof.
  revert n. induction rows as [|row t IH]; intros n; simpl;
    [reflexivity | now rewrite IH].
Qed.

Lemma ascending_NoDup (rows : list Sqlite.row) :
  ascending rows -> NoDup (map Sqlite.col_id rows).
Proof.
  induction rows as [|row t IH]; simpl; intros H; [constructor|].
  destruct H as [Hlt Hasc]. constructor; [|now apply IH].
  intros Hin. apply in_map_iff in Hin as [row' [E Hin]].
  specialize (Hlt row' Hin). lia.
Qed.

Lemma loaded_entry (h : heap) (rows : list Sqlite.row) (k : Z) (r : ref) :
  In (k, r) (loaded (List.length h) rows) ->
  exists p, deref (h ++ map producto_of rows) r = Some p
            /\ Producto.id p = k.
Proof.
  revert h. induction rows as [|row t IH]; intros h; simpl; [tauto|].
  intros [E|Hin].
  - injection E as <- <-. exists (producto_of row).
    split; [apply deref_app_new | reflexivity].
  - specialize (IH (h ++ [producto_of row])).
    rewrite length_app, Nat.add_1_r, <- app_assoc in IH. now apply IH.
Qed.

Lemma loaded_view (h : heap) (rows : list Sqlite.row) (k : Z) :
  match dict_get k (loaded (List.length h) rows) with
  | Some r => deref (h ++ map producto_of rows) r
  | None => None
  end = option_map producto_of (Sqlite.row_lookup k rows).
Proof.
  revert h. induction rows as [|row t IH]; intros h; simpl; [reflexivity|].
  destruct (k =? Sqlite.col_id row); [apply deref_app_new|].
  specialize (IH (h ++ [producto_of row])).
  now rewrite length_app, Nat.add_1_r, <- app_assoc in IH.
Qed.

Lemma Inv_loaded (h : heap) (file : Sqlite.table)
    (lg : list Sqlite.statement) :
  table_ok file ->
  Inv (mkWorld (h ++ map producto_of file)
         (mkInventario (Sqlite.mk_conn file file lg)
                       (loaded (List.length h) file))).
Proof.
  intros [Hasc Hok]. constructor; simpl.
  - rewrite loaded_keys. now apply ascending_NoDup.
  - intros k r. apply loaded_entry.
  - intros k. unfold view. simpl. rewrite loaded_view.
    destruct (Sqlite.row_lookup k file) as [row|]; simpl;
      [now rewrite row_of_producto_of | reflexivity].
  - reflexivity.
  - now split.
Qed.

(** A repository opened on a well-formed file starts in a state of the
    invariant, and its mapping is the file. *)
Lemma __init___Inv (file : Sqlite.table) (h : heap) :
  table_ok file ->
  exists w, __init__ file h = Some (Return tt, w) /\ Inv w
            /\ forall k, view w k
                         = option_map producto_of (Sqlite.row_lookup k file).
Proof.
  intros Hok. rewrite (__init___eq file h (proj1 Hok)).
  eexists. split; [reflexivity|]. split; [now apply Inv_loaded|].
  intros k. unfold view. simpl. apply loaded_view.
Qed.

(** ** Strings: white space, case and substrings *)

Section Strings.

Local Open Scope string_scope.



Lemma prefix_app (n h : string) :
  String.prefix n h = true <-> exists post, h = n ++ post.
Proof.
  revert h. induction n as [|a n IH]; intros h; simpl.
  - split; [intros _; now exists h | intros _; now destruct h].
  - destruct h as [|b h]; simpl.
    + split; [discriminate | intros [post H]; discriminate].
    + destruct (ascii_dec a b) as [->|Hne].
      * rewrite IH. split; intros [post H]; exists post; congruence.
      * split; [discriminate | intros [post H]; congruence].
Qed.

Local Arguments String.prefix : simpl never.

Lemma contains_app (n h : string) :
  PyStr.contains n h = true <-> exists pre post, h = pre ++ n ++ post.
Proof.
  induction h as [|b h IH]; simpl.
  - rewrite orb_false_r, prefix_app. split.
    + intros [post H]. exists "", post. exact H.
    + intros [pre [post H]]. destruct pre; [eauto | discriminate].
  - rewrite orb_true_iff, prefix_app, IH. split.
    + intros [[post H]|[pre [post H]]].
      * exists "", post. exact H.
      * exists (String b pre), post. simpl. now rewrite H.
    + intros [pre [post H]]. destruct pre as [|a pre]; simpl in H.
      * left. eauto.
      * right. exists pre, post. congruence.
Qed.

Lemma lower_app (s t : string) :
  PyStr.lower (s ++ t) = PyStr.lower s ++ PyStr.lower t.
Proof. induction s as [|c s IH]; simpl; [reflexivity | now rewrite IH]. Qed.


Lemma code_bounded (c : ascii) : 0 <= PyStr.code c < 256.
Proof.
  unfold PyStr.code. pose proof (N_ascii_bounded c). lia.
Qed.








End Strings.

(** ** [cargar_ejemplo_neos] and the example worlds *)

Lemma Inv_inicial (h : heap) : Inv (inicial h).
Proof.
  constructor; simpl.
  - constructor.
  - intros k r [].
  - reflexivity.
  - reflexivity.
  - split; [exact I | constructor].
Qed.

Lemma row_lookup_none_nil (t : Sqlite.table) :
  (forall k, Sqlite.row_lookup k t = None) -> t = [].
Proof.
  destruct t as [|r t]; [reflexivity|].
  intros H. specialize (H (Sqlite.col_id r)). simpl in H.
  rewrite Z.eqb_refl in H. discriminate.
Qed.

Lemma new_all_eq (ps : list Producto.t) (w : world) :
  new_all ps w
  = Some (Return (seq (List.length (objects w)) (List.length ps)),
          mkWorld (objects w ++ ps) (self w)).
Proof.
  revert w. induction ps as [|p t IH]; intros w; simpl.
  - unfold ret. rewrite app_nil_r. now destruct w.
  - unfold bind at 1. unfold new at 1, alloc.
    unfold bind at 1. rewrite IH. cbn [objects self]. unfold ret.
    rewrite length_app, Nat.add_1_r, <- app_assoc. reflexivity.
Qed.

Lemma for_each_agregar (ps : list Producto.t) (h0 : heap) (w : world) :
  Inv w -> objects w = h0 ++ ps ->
  NoDup (map Producto.id ps) ->
  (forall p, In p ps ->
     dict_contains (Producto.id p) (productos (self w)) = false) ->
  Forall (fun p => row_ok (row_of p)) ps ->
  for_each (seq (List.length h0) (List.length ps))
    (fun p => agregar_producto p ;; ret tt) w
  = Some (Return tt, added_all ps (List.length h0) w)
  /\ Inv (added_all ps (List.length h0) w).
Proof.
  revert h0 w. induction ps as [|p t IH]; intros h0 w HI Hobj Hnd Hfresh Hok.
  - simpl. split; [reflexivity | exact HI].
  - inversion Hnd as [|? ? Hnotin Hnd']; subst.
    inversion Hok as [|? ? Hp Hok']; subst.
    assert (Hr : deref (objects w) (List.length h0) = Some p).
    { rewrite Hobj. apply deref_app_new. }
    assert (Hf : dict_contains (Producto.id p) (productos (self w)) = false).
    { apply Hfresh. now left. }
    pose proof (agregar_producto_fresh w _ p HI Hr Hf Hp) as E.
    destruct (agregar_producto_Inv _ _ _ _ HI E) as [HI1 Hobj1].
    cbn [List.length seq for_each added_all].
    unfold bind at 1. unfold bind at 1. rewrite E. unfold ret at 1.
    specialize (IH (h0 ++ [p]) (added_one p (List.length h0) w)).
    rewrite length_app, Nat.add_1_r in IH. apply IH; auto.
    + rewrite Hobj1, Hobj, <- app_assoc. reflexivity.
    + intros p' Hin. simpl. apply dict_contains_false.
      rewrite dict_get_set.
      destruct (Z.eqb_spec (Producto.id p') (Producto.id p)) as [E'|_].
      * exfalso. apply Hnotin. rewrite <- E'. now apply in_map.
      * apply dict_contains_false. apply Hfresh. now right.
Qed.

Lemma ejemplos_ok : Forall (fun p => row_ok (row_of p)) ejemplos.
Proof. repeat constructor. Qed.

Lemma ejemplos_NoDup : NoDup (map Producto.id ejemplos).
Proof.
  simpl. repeat constructor; simpl; intros H;
    repeat (destruct H as [H|H]; [discriminate|]); exact H.
Qed.

(** On an empty mapping the products of the list are created, then added
    one by one. *)
Lemma cargar_ejemplo_neos_empty (w : world) :
  Inv w -> productos (self w) = [] ->
  cargar_ejemplo_neos w
  = Some (Return tt,
          added_all ejemplos (List.length (objects w))
            (mkWorld (objects w ++ ejemplos) (self w)))
  /\ Inv (added_all ejemplos (List.length (objects w))
            (mkWorld (objects w ++ ejemplos) (self w))).
Proof.
  intros HI Hd.
  assert (HI0 : Inv (mkWorld (objects w ++ ejemplos) (self w))).
  { destruct HI as [Hk He Ha Hc Ht]. constructor; simpl.
    - exact Hk.
    - rewrite Hd. intros k r [].
    - intros k. rewrite Ha. unfold view. simpl. now rewrite Hd.
    - exact Hc.
    - exact Ht. }
  destruct (for_each_agregar ejemplos (objects w)
              (mkWorld (objects w ++ ejemplos) (self w)) HI0 eq_refl
              ejemplos_NoDup) as [E HI1].
  { intros p _. simpl. now rewrite Hd. }
  { exact ejemplos_ok. }
  split; [|exact HI1].
  unfold cargar_ejemplo_neos. unfold bind at 1. rewrite listar_todos_eq.
  rewrite Hd. cbn [dict_values map].
  unfold bind at 1. rewrite new_all_eq. exact E.
Qed.

Lemma cargar_ejemplo_neos_nonempty (w : world) :
  productos (self w) <> [] -> cargar_ejemplo_neos w = Some (Return tt, w).
Proof.
  intros Hd. unfold cargar_ejemplo_neos. unfold bind at 1.
  rewrite listar_todos_eq.
  destruct (productos (self w)) as [|[k r] d]; [congruence | reflexivity].
Qed.

Lemma Inv_sembrado : Inv sembrado.
Proof.
  exact (proj2 (cargar_ejemplo_neos_empty (inicial []) (Inv_inicial [])
                  eq_refl)).
Qed.

(** The invariant is kept by the methods of the repository; a caller that
    changes an object it has handed over breaks it. After [caller_script]
    two keys share one object, and the update of 101 shows under 102 in
    the mapping while the row of 102 keeps its quantity. *)
Remark caller_mutation_breaks_agreement :
  exists w,
    caller_script (inicial [harina]) = Some (Return true, w)
    /\ productos (self w) = [(101, 0%nat); (102, 0%nat)]
    /\ option_map Producto.cantidad (view w 102) = Some 5
    /\ option_map Sqlite.col_cantidad
         (Sqlite.row_lookup 102 (Sqlite.committed (conn (self w))))
       = Some 20.
Proof. eexists. repeat split; reflexivity. Qed.

(** The scenario of the specification: add 101, add it again, set its
    quantity to 15, remove it, search for it. *)
Example scenario :
  exists w1 w2 w3,
    agregar_producto 0%nat (inicial [harina]) = Some (Return true, w1)
    /\ agregar_producto 0%nat w1 = Some (Return false, w1)
    /\ actualizar_cantidad 101 15 w1 = Some (Return true, w2)
    /\ view w2 101 = Some (Producto.set_cantidad harina 15)
    /\ eliminar_producto 101 w2 = Some (Return true, w3)
    /\ buscar_por_nombre "harina" w3 = Some (Return [], w3).
Proof. do 3 eexists. repeat split; reflexivity. Qed.

(** * The claims *)

Lemma Inv_agrees (w : world) : Inv w -> agrees w.
Proof.
  intros HI. unfold agrees. intros k.
  rewrite (inv_committed w HI). apply (inv_agree w HI).
Qed.

Lemma reload_view (w : world) (h : heap) :
  Inv w ->
  exists w', __init__ (cerrar w) h = Some (Return tt, w')
             /\ Inv w' /\ forall k, view w' k = view w k.
Proof.
  intros HI.
  assert (Hok : table_ok (cerrar w)).
  { unfold cerrar, Sqlite.close. rewrite (inv_committed w HI).
    apply (inv_table w HI). }
  destruct (__init___Inv (cerrar w) h Hok) as (w' & E & HI' & Hv).
  exists w'. split; [exact E|]. split; [exact HI'|].
  intros k. rewrite Hv. unfold cerrar, Sqlite.close.
  rewrite (Inv_agrees w HI k).
  destruct (view w k) as [p|]; simpl;
    [now rewrite producto_of_row_of | reflexivity].
Qed.



(** C4. Adding a product whose identifier the mapping already holds
    returns [False] and leaves the world as it was: the objects, the
    mapping, the file, the table of the connection and the statements it
    has executed. *)
Theorem add_present_rejected (w : world) (producto : ref)
    (p : Producto.t) :
  deref (objects w) producto = Some p ->
  dict_contains (Producto.id p) (productos (self w)) = true ->
  agregar_producto producto w = Some (Return false, w).
Proof.
  intros Hr Hc. now rewrite agregar_producto_eq, Hr, Hc.
Qed.

Lemma add_present_rejected_witness :
  agregar_producto 0%nat sembrado = Some (Return false, sembrado).
Proof.
  apply (add_present_rejected sembrado 0%nat harina); reflexivity.
Defined.

Lemma filter_all {A : Type} (f : A -> bool) (l : list A) :
  (forall x, In x l -> f x = true) -> filter f l = l.
Proof.
  induction l as [|x t IH]; simpl; intros H; [reflexivity|].
  rewrite (H x (or_introl eq_refl)). f_equal. apply IH.
  intros y Hy. apply H. now right.
Qed.





(** C10. [buscar_por_nombre] and [listar_todos] return in the world they
    were called in: the objects, the mapping, the file, the table of the
    connection and the list of the statements it has executed are the
    same, whatever the query. *)
Theorem queries_read_only (w : world) (nombre : string) :
  (forall o w', buscar_por_nombre nombre w = Some (o, w') -> w' = w)
  /\ (forall o w', listar_todos w = Some (o, w') -> w' = w)
  /\ (Inv w ->
      exists l1 l2,
        buscar_por_nombre nombre w = Some (Return l1, w)
        /\ listar_todos w = Some (Return l2, w)).
Proof.
  split; [|split].
  - intros o w'. unfold buscar_por_nombre.
    destruct (select_objects _ _ _); [|discriminate].
    intros H. now injection H.
  - intros o w' H. rewrite listar_todos_eq in H. now injection H.
  - intros HI. rewrite (buscar_por_nombre_eq nombre w HI), listar_todos_eq.
    eauto.
Qed.

Lemma queries_read_only_witness :
  exists l1 l2,
    buscar_por_nombre "pizza" sembrado = Some (Return l1, sembrado)
    /\ listar_todos sembrado = Some (Return l2, sembrado).
Proof.
  apply (queries_read_only sembrado "pizza"). exact Inv_sembrado.
Defined.

Lemma filter_none {A : Type} (f : A -> bool) (l : list A) :
  (forall x, In x l -> f x = false) -> filter f l = [].
Proof.
  induction l as [|x t IH]; simpl; intros H; [reflexivity|].
  rewrite (H x (or_introl eq_refl)). apply IH.
  intros y Hy. apply H. now right.
Qed.

(** Where the mapping does not hold [i], no product it lists carries [i]. *)
Lemma with_id_absent (w : world) (i : Z) :
  Inv w -> dict_contains i (productos (self w)) = false ->
  with_id (objects w) i (dict_values (productos (self w))) = [].
Proof.
  intros HI Hc. apply filter_none. intros r Hr.
  destruct (Inv_values w r HI Hr) as [p [-> Hin]].
  destruct (Z.eqb_spec (Producto.id p) i) as [E|_]; [|reflexivity].
  apply dict_contains_false, dict_get_None in Hc.
  exfalso. apply Hc. rewrite <- E. eapply In_dict_keys; eauto.
Qed.

(** C3, as the claim states it, fails: a product with a new identifier and
    a negative quantity, or a negative price, is refused by the CHECKs of
    the table, and [agregar_producto] returns [False]. *)
Lemma add_fresh_counterexample :
  Inv (inicial [levadura; albahaca])
  /\ deref (objects (inicial [levadura; albahaca])) 0%nat = Some levadura
  /\ dict_contains (Producto.id levadura)
       (productos (self (inicial [levadura; albahaca]))) = false
  /\ agregar_producto 0%nat (inicial [levadura; albahaca])
     = Some (Return false, inicial [levadura; albahaca])
  /\ deref (objects (inicial [levadura; albahaca])) 1%nat = Some albahaca
  /\ dict_contains (Producto.id albahaca)
       (productos (self (inicial [levadura; albahaca]))) = false
  /\ agregar_producto 1%nat (inicial [levadura; albahaca])
     = Some (Return false, inicial [levadura; albahaca]).
Proof.
  split; [apply Inv_inicial|]. repeat split; reflexivity.
Qed.

(** C3, amended. A product with a new identifier, whose identifier and
    quantity are 64-bit integers and whose quantity and price are not
    negative, is added: [agregar_producto] returns [True], and
    [listar_todos] then holds exactly one product with that identifier,
    the object that was added, with its fields. *)
Theorem add_fresh (w : world) (producto : ref) (p : Producto.t) :
  Inv w -> deref (objects w) producto = Some p ->
  dict_contains (Producto.id p) (productos (self w)) = false ->
  row_ok (row_of p) ->
  exists w' l,
    agregar_producto producto w = Some (Return true, w')
    /\ listar_todos w' = Some (Return l, w')
    /\ with_id (objects w') (Producto.id p) l = [producto]
    /\ deref (objects w') producto = Some p.
Proof.
  intros HI Hr Hfresh Hrow.
  exists (added_one p producto w),
         (dict_values (productos (self (added_one p producto w)))).
  split; [now apply agregar_producto_fresh|].
  split; [reflexivity|]. split; [|exact Hr].
  simpl. apply dict_contains_false in Hfresh as Hget.
  rewrite (dict_set_fresh _ _ _ Hget).
  unfold dict_values, with_id. rewrite map_app, filter_app.
  fold (dict_values (productos (self w))).
  fold (with_id (objects w) (Producto.id p)
          (dict_values (productos (self w)))).
  rewrite (with_id_absent w _ HI Hfresh). simpl.
  now rewrite Hr, Z.eqb_refl.
Qed.

Lemma add_fresh_witness :
  exists w' l,
    agregar_producto 0%nat (inicial [harina]) = Some (Return true, w')
    /\ listar_todos w' = Some (Return l, w')
    /\ with_id (objects w') (Producto.id harina) l = [0%nat]
    /\ deref (objects w') 0%nat = Some harina.
Proof.
  apply (add_fresh (inicial [harina]) 0%nat harina).
  - apply Inv_inicial.
  - reflexivity.
  - reflexivity.
  - repeat split; reflexivity.
Defined.

(** C2. In the code a violated constraint is turned into [False] by
    [agregar_producto] only: it never lets [IntegrityError] out. The two
    updates have no handler: on an identifier of the mapping, a negative
    quantity, a negative price or a NaN price raises [IntegrityError] out
    of the method, in an unchanged world. *)
Theorem update_violation_raises (w : world) (id_ q : Z) (v : spec_float) :
  Inv w -> dict_contains id_ (productos (self w)) = true ->
  (Sqlite.in_int64 q = true -> q < 0 ->
   actualizar_cantidad id_ q w = Some (Raise IntegrityError, w))
  /\ (Sqlite.check_precio v = false ->
      actualizar_precio id_ v w = Some (Raise IntegrityError, w))
  /\ (forall producto o w',
        agregar_producto producto w = Some (o, w') ->
        o <> Raise IntegrityError).
Proof.
  intros HI Hc.
  pose proof (Inv_stored_id w id_ HI Hc) as Hid.
  pose proof (Inv_has_id w id_ HI) as Hhas. rewrite Hc in Hhas.
  split; [|split].
  - intros Hq Hneg. rewrite actualizar_cantidad_eq.
    unfold actualizar. rewrite Hc.
    unfold Sqlite.execute, Sqlite.run_update_cantidad.
    rewrite Hq, Hid, Hhas. unfold Sqlite.check_cantidad.
    destruct (Z.leb_spec 0 q); [lia | reflexivity].
  - intros Hv. rewrite actualizar_precio_eq.
    unfold actualizar. rewrite Hc.
    unfold Sqlite.execute, Sqlite.run_update_precio.
    rewrite Hid, Hhas.
    destruct (Sqlite.bind_float v) as [v'|] eqn:Hb; [|reflexivity].
    apply bind_float_Some in Hb. subst v'. now rewrite Hv.
  - intros producto o w'. rewrite agregar_producto_eq.
    destruct (deref (objects w) producto) as [p|]; [|discriminate].
    destruct (dict_contains (Producto.id p) (productos (self w))).
    { intros H. injection H as <- _. discriminate. }
    destruct (Sqlite.execute _ _) as [[]|[c rows]];
      intros H; injection H as <- _; discriminate.
Qed.

Lemma update_violation_raises_witness :
  actualizar_cantidad 101 (-1) sembrado = Some (Raise IntegrityError, sembrado)
  /\ actualizar_precio 101 (S754_finite true 4503599627370496 (-52)) sembrado
     = Some (Raise IntegrityError, sembrado).
Proof.
  destruct (update_violation_raises sembrado 101 (-1)
              (S754_finite true 4503599627370496 (-52))
              Inv_sembrado eq_refl) as (H1 & H2 & _).
  split; [apply H1; [reflexivity | lia] | apply H2; reflexivity].
Defined.




Lemma absent_not_listed (w : world) (i : Z) (l : list ref) :
  Inv w -> dict_contains i (productos (self w)) = false ->
  (forall r, In r l -> In r (dict_values (productos (self w)))) ->
  with_id (objects w) i l = [].
Proof.
  intros HI Hc Hsub. apply filter_none. intros r Hr.
  destruct (Inv_values w r HI (Hsub r Hr)) as [p [-> Hin]].
  destruct (Z.eqb_spec (Producto.id p) i) as [E|_]; [|reflexivity].
  apply dict_contains_false, dict_get_None in Hc.
  exfalso. apply Hc. rewrite <- E. eapply In_dict_keys; eauto.
Qed.

Lemma adds_same_identity (h h' : heap) (i : Z) (c : call) :
  same_identity h h' -> adds h' i c -> adds h i c.
Proof.
  intros Hs. destruct c; simpl; auto.
  intros (p' & Hp' & Hid).
  destruct (same_identity_back h h' _ p' Hs Hp') as (p & Hp & Hi & _).
  exists p. split; congruence.
Qed.

Lemma actualizar_productos (stmt : Sqlite.statement)
    (setter : Producto.t -> Producto.t) (id_ : Z) (w w' : world)
    (o : outcome bool) :
  actualizar stmt setter id_ w = Some (o, w') ->
  productos (self w') = productos (self w).
Proof.
  unfold actualizar.
  destruct (dict_contains id_ (productos (self w)));
    [|intros H; now injection H as _ <-].
  destruct (Sqlite.execute stmt (conn (self w))) as [e|[c rows]];
    [intros H; now injection H as _ <-|].
  destruct (dict_get id_ (productos (self w))) as [r|];
    [|intros H; now injection H as _ <-].
  destruct (deref (objects w) r); [|discriminate].
  intros H. now injection H as _ <-.
Qed.

Lemma perform_keeps_absent (c : call) (w w' : world) (i : Z) :
  Inv w -> dict_contains i (productos (self w)) = false ->
  ~ adds (objects w) i c -> perform c w = Some w' ->
  dict_contains i (productos (self w')) = false.
Proof.
  intros HI Hc Hadd. destruct c as [r|j|j q|j v|s|]; simpl.
  - rewrite agregar_producto_eq.
    destruct (deref (objects w) r) as [p|] eqn:Hr; [|discriminate].
    destruct (dict_contains (Producto.id p) (productos (self w))).
    { intros H. now injection H as <-. }
    destruct (Sqlite.execute _ _) as [[]|[c rows]]; simpl;
      intros H; injection H as <-; auto.
    simpl. apply dict_contains_false. rewrite dict_get_set.
    destruct (Z.eqb_spec i (Producto.id p)) as [E|_].
    + exfalso. apply Hadd. simpl. eauto.
    + now apply dict_contains_false.
  - rewrite eliminar_producto_eq.
    destruct (dict_contains j (productos (self w)));
      [|intros H; now injection H as <-].
    destruct (Sqlite.execute _ _) as [e|[c rows]]; simpl;
      intros H; injection H as <-; auto.
    simpl. apply dict_contains_false.
    rewrite (dict_get_pop _ _ _ (inv_keys w HI)).
    destruct (i =? j); [reflexivity | now apply dict_contains_false].
  - rewrite actualizar_cantidad_eq.
    destruct (actualizar _ _ j w) as [[o w1]|] eqn:E; [|discriminate].
    simpl. intros H. injection H as <-.
    now rewrite (actualizar_productos _ _ _ _ _ _ E).
  - rewrite actualizar_precio_eq.
    destruct (actualizar _ _ j w) as [[o w1]|] eqn:E; [|discriminate].
    simpl. intros H. injection H as <-.
    now rewrite (actualizar_productos _ _ _ _ _ _ E).
  - rewrite (buscar_por_nombre_eq s w HI). simpl.
    intros H. now injection H as <-.
  - intros H. now injection H as <-.
Qed.

Lemma run_keeps_absent (cs : list call) (w w' : world) (i : Z) :
  Inv w -> dict_contains i (productos (self w)) = false ->
  (forall c, In c cs -> ~ adds (objects w) i c) ->
  run cs w = Some w' ->
  dict_contains i (productos (self w')) = false.
Proof.
  revert w. induction cs as [|c t IH]; simpl; intros w HI Hc Hadd.
  - intros H. now injection H as <-.
  - destruct (perform c w) as [w1|] eqn:E; [|discriminate].
    destruct (perform_Inv c w w1 HI E) as [HI1 Hs1].
    apply IH; auto.
    + apply (perform_keeps_absent c w w1 i HI Hc);
        [apply Hadd; now left | exact E].
    + intros c' Hin Hadd'. apply (Hadd c'); [now right|].
      eapply adds_same_identity; eauto.
Qed.

(** C6. Removing an identifier the mapping does not hold returns [False]
    in an unchanged world. Removing one it holds returns [True]; the row is
    gone from the file, and after any further calls that do not add a
    product with that identifier, neither [listar_todos] nor
    [buscar_por_nombre] returns a product that carries it. *)
Theorem remove_then_gone (w : world) (id_ : Z) :
  (dict_contains id_ (productos (self w)) = false ->
   eliminar_producto id_ w = Some (Return false, w))
  /\ (Inv w -> dict_contains id_ (productos (self w)) = true ->
      exists w1,
        eliminar_producto id_ w = Some (Return true, w1)
        /\ Sqlite.row_lookup id_ (Sqlite.committed (conn (self w1))) = None
        /\ forall cs,
             Forall (call_ok (objects w1)) cs ->
             (forall c, In c cs -> ~ adds (objects w1) id_ c) ->
             exists w2 l,
               run cs w1 = Some w2
               /\ listar_todos w2 = Some (Return l, w2)
               /\ with_id (objects w2) id_ l = []
               /\ forall nombre, exists l',
                    buscar_por_nombre nombre w2 = Some (Return l', w2)
                    /\ with_id (objects w2) id_ l' = []).
Proof.
  split; [apply eliminar_producto_absent|].
  intros HI Hc. eexists. split; [now apply eliminar_producto_present|].
  pose proof (eliminar_producto_present w id_ HI Hc) as E.
  destruct (eliminar_producto_Inv _ _ _ _ HI E) as [HI1 Hobj1].
  set (w1 := mkWorld _ _) in *.
  assert (Hc1 : dict_contains id_ (productos (self w1)) = false).
  { simpl. apply dict_contains_false.
    rewrite (dict_get_pop _ _ _ (inv_keys w HI)). now rewrite Z.eqb_refl. }
  split.
  { rewrite (Inv_agrees w1 HI1 id_). unfold view.
    apply dict_contains_false in Hc1. now rewrite Hc1. }
  intros cs Hok Hadd.
  destruct (run_defined cs w1 HI1 Hok) as [w2 E2].
  destruct (run_Inv cs w1 w2 HI1 E2) as [HI2 _].
  pose proof (run_keeps_absent cs w1 w2 id_ HI1 Hc1 Hadd E2) as Hc2.
  exists w2, (dict_values (productos (self w2))).
  split; [exact E2|]. split; [reflexivity|].
  split; [now apply absent_not_listed|].
  intros nombre. eexists.
  split; [apply (buscar_por_nombre_eq nombre w2 HI2)|].
  apply absent_not_listed; auto.
  intros r Hr. now apply filter_In in Hr.
Qed.

Lemma remove_then_gone_witness :
  exists w1,
    eliminar_producto 101 sembrado = Some (Return true, w1)
    /\ Sqlite.row_lookup 101 (Sqlite.committed (conn (self w1))) = None
    /\ forall cs,
         Forall (call_ok (objects w1)) cs ->
         (forall c, In c cs -> ~ adds (objects w1) 101 c) ->
         exists w2 l,
           run cs w1 = Some w2
           /\ listar_todos w2 = Some (Return l, w2)
           /\ with_id (objects w2) 101 l = []
           /\ forall nombre, exists l',
                buscar_por_nombre nombre w2 = Some (Return l', w2)
                /\ with_id (objects w2) 101 l' = [].
Proof.
  apply (remove_then_gone sembrado 101); [exact Inv_sembrado | reflexivity].
Defined.

Lemma deref_seq (h l : heap) :
  map (deref (h ++ l)) (seq (List.length h) (List.length l)) = map Some l.
Proof.
  revert h. induction l as [|p t IH]; intros h; simpl; [reflexivity|].
  rewrite deref_app_new. f_equal.
  specialize (IH (h ++ [p])).
  now rewrite length_app, Nat.add_1_r, <- app_assoc in IH.
Qed.

(** C8. [cargar_ejemplo_neos] returns at once, in an unchanged world, when
    the mapping holds a product. On an empty mapping it executes the eight
    INSERT statements of the example products, after which the file holds
    their eight rows and the mapping lists these eight products. *)
Theorem seed_only_when_empty (w : world) :
  (productos (self w) <> [] -> cargar_ejemplo_neos w = Some (Return tt, w))
  /\ (Inv w -> productos (self w) = [] ->
      exists w',
        cargar_ejemplo_neos w = Some (Return tt, w')
        /\ Sqlite.committed (conn (self w')) = map row_of ejemplos
        /\ map (deref (objects w')) (dict_values (productos (self w')))
           = map Some ejemplos
        /\ Sqlite.log (conn (self w'))
           = Sqlite.log (conn (self w)) ++ map insert_of ejemplos
        /\ List.length ejemplos = 8%nat).
Proof.
  split; [apply cargar_ejemplo_neos_nonempty|].
  intros HI Hd.
  destruct (cargar_ejemplo_neos_empty w HI Hd) as [E _].
  eexists. split; [exact E|].
  assert (Hcur : Sqlite.current (conn (self w)) = []).
  { apply row_lookup_none_nil. intros k.
    rewrite (inv_agree w HI k). unfold view. now rewrite Hd. }
  destruct w as [h [[cm cu lg] d]]. simpl in *. subst d cu.
  split; [reflexivity|]. split; [|split; [|reflexivity]].
  - exact (deref_seq h ejemplos).
  - simpl. now rewrite <- !app_assoc.
Qed.

Lemma seed_only_when_empty_witness :
  exists w',
    cargar_ejemplo_neos (inicial []) = Some (Return tt, w')
    /\ Sqlite.committed (conn (self w')) = map row_of ejemplos
    /\ map (deref (objects w')) (dict_values (productos (self w')))
       = map Some ejemplos
    /\ Sqlite.log (conn (self w'))
       = Sqlite.log (conn (self (inicial []))) ++ map insert_of ejemplos
    /\ List.length ejemplos = 8%nat.
Proof.
  apply (seed_only_when_empty (inicial [])); [apply Inv_inicial | reflexivity].
Defined.

(** * More of the repository *)

(** ** Opening a file *)

Lemma loaded_values (n : ref) (rows : list Sqlite.row) :
  dict_values (loaded n rows) = seq n (List.length rows).
Proof.
  revert n. induction rows as [|row t IH]; intros n; simpl;
    [reflexivity | now rewrite <- IH].
Qed.

Lemma ejemplos_table_ok : table_ok (map row_of ejemplos).
Proof. exact (inv_table sembrado Inv_sembrado). Qed.

(** X1. A repository opened on a file lists the rows of the file, as
    products, in the order of the file, which is ascending [id]; the new
    objects come after the objects the process had, and the file stays as
    it was. *)
Theorem open_lists_the_file (file : Sqlite.table) (h : heap) :
  table_ok file ->
  exists w,
    __init__ file h = Some (Return tt, w)
    /\ dict_keys (productos (self w)) = map Sqlite.col_id file
    /\ map (deref (objects w)) (dict_values (productos (self w)))
       = map (fun row => Some (producto_of row)) file
    /\ objects w = h ++ map producto_of file
    /\ cerrar w = file.
Proof.
  intros [Hasc _]. rewrite (__init___eq file h Hasc).
  eexists. split; [reflexivity|]. simpl.
  split; [apply loaded_keys|]. split; [|split; reflexivity].
  rewrite loaded_values.
  rewrite <- (length_map producto_of file), deref_seq.
  now rewrite map_map.
Qed.

Lemma open_lists_the_file_witness :
  exists w,
    __init__ (map row_of ejemplos) [levadura] = Some (Return tt, w)
    /\ dict_keys (productos (self w))
       = map Sqlite.col_id (map row_of ejemplos)
    /\ map (deref (objects w)) (dict_values (productos (self w)))
       = map (fun row => Some (producto_of row)) (map row_of ejemplos)
    /\ objects w = [levadura] ++ map producto_of (map row_of ejemplos)
    /\ cerrar w = map row_of ejemplos.
Proof.
  apply (open_lists_the_file (map row_of ejemplos) [levadura]).
  exact ejemplos_table_ok.
Defined.

(** ** What the mapping can hold *)

Lemma Inv_product_valid (w : world) (k : Z) (p : Producto.t) :
  Inv w -> view w k = Some p -> Producto.id p = k /\ row_ok (row_of p).
Proof.
  intros HI Hv. split; [eapply Inv_view; eauto|].
  pose proof (inv_agree w HI k) as Ha. rewrite Hv in Ha. simpl in Ha.
  apply row_lookup_id in Ha as [_ Hin].
  destruct (inv_table w HI) as [_ Hok].
  rewrite Forall_forall in Hok. now apply Hok.
Qed.

(** X2. Whatever calls are made on the repository, the keys of the mapping
    stay distinct and every product it holds carries its key as
    identifier, a quantity that is not negative and a price that is not
    negative (nor a NaN); the rows of the file satisfy the same. *)
Theorem stored_products_valid (w : world) (cs : list call) :
  Inv w -> Forall (call_ok (objects w)) cs ->
  exists w',
    run cs w = Some w'
    /\ NoDup (dict_keys (productos (self w')))
    /\ (forall k p, view w' k = Some p ->
          Producto.id p = k /\ 0 <= Producto.cantidad p
          /\ Sqlite.check_precio (Producto.precio p) = true)
    /\ Forall row_ok (cerrar w').
Proof.
  intros HI Hok. destruct (run_defined cs w HI Hok) as [w' E].
  destruct (run_Inv cs w w' HI E) as [HI' _].
  exists w'. split; [exact E|]. split; [apply (inv_keys w' HI')|]. split.
  - intros k p Hv.
    destruct (Inv_product_valid w' k p HI' Hv) as [Hid (_ & _ & Hc & Hp)].
    simpl in Hc, Hp. repeat split; auto.
    now apply Z.leb_le.
  - unfold cerrar, Sqlite.close. rewrite (inv_committed w' HI').
    apply (inv_table w' HI').
Qed.

Lemma stored_products_valid_witness :
  exists w',
    run [Agregar 0%nat; Agregar 1%nat; ActualizarCantidad 101 (-3);
         ActualizarPrecio 101 S754_nan; Agregar 2%nat]
        (inicial [levadura; harina; albahaca]) = Some w'
    /\ NoDup (dict_keys (productos (self w')))
    /\ (forall k p, view w' k = Some p ->
          Producto.id p = k /\ 0 <= Producto.cantidad p
          /\ Sqlite.check_precio (Producto.precio p) = true)
    /\ Forall row_ok (cerrar w').
Proof.
  apply (stored_products_valid (inicial [levadura; harina; albahaca])).
  - apply Inv_inicial.
  - repeat constructor.
Defined.

(** ** The outcomes of [agregar_producto] *)




(** ** A call that does not return [True] *)





(** ** How the calls compose *)

Lemma dict_pop_set_fresh (k : Z) (v : ref) (d : dict) :
  dict_get k d = None -> dict_pop k (dict_set k v d) = d.
Proof.
  induction d as [|[k' v'] t IH]; simpl.
  - now rewrite Z.eqb_refl.
  - destruct (Z.eqb_spec k k') as [->|Hne]; [discriminate|].
    intros H. simpl. destruct (Z.eqb_spec k k'); [contradiction|].
    now rewrite IH.
Qed.

Lemma run_delete_absent (i : Z) (t : Sqlite.table) :
  (forall r, In r t -> Sqlite.col_id r <> i) -> Sqlite.run_delete i t = t.
Proof.
  intros H. unfold Sqlite.run_delete. apply filter_all.
  intros r Hr. specialize (H r Hr).
  destruct (Z.eqb_spec (Sqlite.col_id r) i); [contradiction | reflexivity].
Qed.

Lemma row_lookup_none_In (i : Z) (t : Sqlite.table) (r : Sqlite.row) :
  Sqlite.row_lookup i t = None -> In r t -> Sqlite.col_id r <> i.
Proof.
  induction t as [|x t IH]; simpl; [tauto|].
  destruct (Z.eqb_spec i (Sqlite.col_id x)) as [->|Hne]; [discriminate|].
  intros Hn [->|Hin]; [congruence | now apply IH].
Qed.

Lemma run_delete_insert (r : Sqlite.row) (t : Sqlite.table) :
  Sqlite.row_lookup (Sqlite.col_id r) t = None ->
  Sqlite.run_delete (Sqlite.col_id r) (Sqlite.insert_row r t) = t.
Proof.
  intros Hn. induction t as [|x t IH]; simpl in *.
  - now rewrite Z.eqb_refl.
  - destruct (Z.eqb_spec (Sqlite.col_id r) (Sqlite.col_id x)) as [E|Hne];
      [discriminate|].
    destruct (Sqlite.col_id r <? Sqlite.col_id x); simpl.
    + rewrite Z.eqb_refl. simpl.
      destruct (Z.eqb_spec (Sqlite.col_id x) (Sqlite.col_id r));
        [congruence|]. simpl. f_equal.
      apply run_delete_absent. intros y Hy.
      now apply (row_lookup_none_In _ t).
    + destruct (Z.eqb_spec (Sqlite.col_id x) (Sqlite.col_id r));
        [congruence|]. simpl. f_equal. now apply IH.
Qed.

Lemma insert_row_delete (r : Sqlite.row) (t : Sqlite.table) :
  ascending t -> Sqlite.row_lookup (Sqlite.col_id r) t = Some r ->
  Sqlite.insert_row r (Sqlite.run_delete (Sqlite.col_id r) t) = t.
Proof.
  induction t as [|x t IH]; simpl; [discriminate|].
  intros [Hlt Hasc].
  destruct (Z.eqb_spec (Sqlite.col_id r) (Sqlite.col_id x)) as [E|Hne].
  - intros H. injection H as ->. rewrite Z.eqb_refl. simpl.
    rewrite run_delete_absent.
    + destruct t as [|y t]; [reflexivity|]. simpl.
      specialize (Hlt y (or_introl eq_refl)).
      destruct (Z.ltb_spec (Sqlite.col_id r) (Sqlite.col_id y));
        [reflexivity | lia].
    + intros y Hy. specialize (Hlt y Hy). lia.
  - intros H.
    destruct (Z.eqb_spec (Sqlite.col_id x) (Sqlite.col_id r));
      [congruence|]. simpl.
    pose proof (proj2 (row_lookup_id _ _ _ H)) as Hin.
    specialize (Hlt r Hin).
    destruct (Z.ltb_spec (Sqlite.col_id r) (Sqlite.col_id x)); [lia|].
    f_equal. now apply IH.
Qed.

(** X5. Adding a new product and then removing its identifier brings back
    the mapping, with its order, the objects and the file; the connection
    has executed the INSERT and the DELETE. *)
Theorem add_then_remove (w : world) (producto : ref) (p : Producto.t) :
  Inv w -> deref (objects w) producto = Some p ->
  dict_contains (Producto.id p) (productos (self w)) = false ->
  row_ok (row_of p) ->
  exists w1 w2,
    agregar_producto producto w = Some (Return true, w1)
    /\ eliminar_producto (Producto.id p) w1 = Some (Return true, w2)
    /\ objects w2 = objects w
    /\ productos (self w2) = productos (self w)
    /\ cerrar w2 = cerrar w
    /\ Sqlite.log (conn (self w2))
       = Sqlite.log (conn (self w))
           ++ [insert_of p; Sqlite.Delete (Producto.id p)].
Proof.
  intros HI Hr Hfresh Hrow.
  pose proof (agregar_producto_fresh w producto p HI Hr Hfresh Hrow) as E1.
  destruct (agregar_producto_Inv _ _ _ _ HI E1) as [HI1 _].
  assert (Hc1 : dict_contains (Producto.id p)
                  (productos (self (added_one p producto w))) = true).
  { simpl. apply dict_contains_true. exists producto.
    now rewrite dict_get_set, Z.eqb_refl. }
  pose proof (eliminar_producto_present _ _ HI1 Hc1) as E2.
  eexists _, _. split; [exact E1|]. split; [exact E2|]. simpl.
  apply dict_contains_false in Hfresh as Hget.
  assert (Hn : Sqlite.row_lookup (Sqlite.col_id (row_of p))
                 (Sqlite.current (conn (self w))) = None).
  { simpl. rewrite (inv_agree w HI). unfold view. now rewrite Hget. }
  split; [reflexivity|]. split; [now apply dict_pop_set_fresh|]. split.
  - unfold cerrar, Sqlite.close. simpl. rewrite (inv_committed w HI).
    exact (run_delete_insert (row_of p) _ Hn).
  - now rewrite <- app_assoc.
Qed.

Lemma add_then_remove_witness :
  exists w1 w2,
    agregar_producto 0%nat (inicial [harina]) = Some (Return true, w1)
    /\ eliminar_producto (Producto.id harina) w1 = Some (Return true, w2)
    /\ objects w2 = objects (inicial [harina])
    /\ productos (self w2) = productos (self (inicial [harina]))
    /\ cerrar w2 = cerrar (inicial [harina])
    /\ Sqlite.log (conn (self w2))
       = Sqlite.log (conn (self (inicial [harina])))
           ++ [insert_of harina; Sqlite.Delete (Producto.id harina)].
Proof.
  apply (add_then_remove (inicial [harina]) 0%nat harina).
  - apply Inv_inicial.
  - reflexivity.
  - reflexivity.
  - repeat split; reflexivity.
Defined.

Lemma row_of_inj (p q : Producto.t) : row_of p = row_of q -> p = q.
Proof.
  intros H. rewrite <- (producto_of_row_of p), <- (producto_of_row_of q).
  now rewrite H.
Qed.

(** Two states of the invariant with the same table hold the same
    products. *)
Lemma Inv_same_table (w w' : world) :
  Inv w -> Inv w' ->
  Sqlite.current (conn (self w')) = Sqlite.current (conn (self w)) ->
  forall k, view w' k = view w k.
Proof.
  intros HI HI' Ht k.
  pose proof (inv_agree w HI k) as H. pose proof (inv_agree w' HI' k) as H'.
  rewrite Ht, H in H'.
  destruct (view w k) as [p|], (view w' k) as [p'|];
    cbn [option_map] in H'; try discriminate; [|reflexivity].
  f_equal. apply row_of_inj. congruence.
Qed.

(** X6. Removing an identifier and adding the object it named again gives
    back the file and, identifier by identifier, the mapping; in the
    dictionary the product has moved to the last place. *)
Theorem remove_then_add_again (w : world) (id_ : Z) (r : ref) :
  Inv w -> dict_get id_ (productos (self w)) = Some r ->
  exists w1 w2,
    eliminar_producto id_ w = Some (Return true, w1)
    /\ agregar_producto r w1 = Some (Return true, w2)
    /\ cerrar w2 = cerrar w
    /\ (forall k, view w2 k = view w k)
    /\ productos (self w2) = dict_pop id_ (productos (self w)) ++ [(id_, r)].
Proof.
  intros HI Hr.
  destruct (Inv_entry w id_ r HI Hr) as [p [Hp Hid]].
  assert (Hc : dict_contains id_ (productos (self w)) = true).
  { apply dict_contains_true. eauto. }
  assert (Hv : view w id_ = Some p) by (unfold view; now rewrite Hr).
  destruct (Inv_product_valid w id_ p HI Hv) as [_ Hrow].
  pose proof (eliminar_producto_present w id_ HI Hc) as E1.
  destruct (eliminar_producto_Inv _ _ _ _ HI E1) as [HI1 Hobj1].
  set (w1 := mkWorld _ _) in *.
  assert (Hget1 : dict_get (Producto.id p) (productos (self w1)) = None).
  { simpl. rewrite Hid, (dict_get_pop _ _ _ (inv_keys w HI)).
    now rewrite Z.eqb_refl. }
  assert (Hp1 : deref (objects w1) r = Some p) by exact Hp.
  pose proof (agregar_producto_fresh w1 r p HI1 Hp1
                (proj2 (dict_contains_false _ _) Hget1) Hrow) as E2.
  destruct (agregar_producto_Inv _ _ _ _ HI1 E2) as [HI2 _].
  assert (Ht : Sqlite.current (conn (self (added_one p r w1)))
               = Sqlite.current (conn (self w))).
  { simpl. rewrite <- Hid.
    apply (insert_row_delete (row_of p)).
    - apply (inv_table w HI).
    - simpl. rewrite Hid, (inv_agree w HI), Hv. reflexivity. }
  exists w1, (added_one p r w1).
  split; [exact E1|]. split; [exact E2|]. split; [|split].
  - unfold cerrar, Sqlite.close.
    rewrite (inv_committed _ HI2), (inv_committed w HI). exact Ht.
  - now apply Inv_same_table.
  - simpl. rewrite Hid. apply dict_set_fresh.
    rewrite (dict_get_pop _ _ _ (inv_keys w HI)). now rewrite Z.eqb_refl.
Qed.

Lemma remove_then_add_again_witness :
  exists w1 w2,
    eliminar_producto 103 sembrado = Some (Return true, w1)
    /\ agregar_producto 2%nat w1 = Some (Return true, w2)
    /\ cerrar w2 = cerrar sembrado
    /\ (forall k, view w2 k = view sembrado k)
    /\ productos (self w2)
       = dict_pop 103 (productos (self sembrado)) ++ [(103, 2%nat)].
Proof.
  apply (remove_then_add_again sembrado 103 2%nat);
    [exact Inv_sembrado | reflexivity].
Defined.

Lemma store_store (h : heap) (r : ref) (p q : Producto.t) :
  store (store h r p) r q = store h r q.
Proof.
  revert r. induction h as [|x t IH]; intros [|r]; simpl; auto.
  now rewrite IH.
Qed.

Lemma store_comm (h : heap) (r r' : ref) (p q : Producto.t) :
  r <> r' -> store (store h r p) r' q = store (store h r' q) r p.
Proof.
  revert r r'. induction h as [|x t IH]; intros [|r] [|r'] Hne; simpl; auto;
    [congruence|]. rewrite IH; [reflexivity | congruence].
Qed.

Lemma actualizar_cantidad_ok (w : world) (id_ q : Z) (r : ref)
    (p : Producto.t) :
  Inv w -> dict_get id_ (productos (self w)) = Some r ->
  deref (objects w) r = Some p ->
  Sqlite.in_int64 q = true -> 0 <= q ->
  actualizar_cantidad id_ q w
  = Some (Return true,
          mkWorld (store (objects w) r (Producto.set_cantidad p q))
            (mkInventario
               (Sqlite.commit
                  (Sqlite.changed (Sqlite.UpdateCantidad q id_)
                     (map (Sqlite.set_cantidad_where q id_)
                          (Sqlite.current (conn (self w))))
                     (conn (self w))))
               (productos (self w)))).
Proof.
  intros HI Hr Hp Hq Hpos.
  assert (Hc : dict_contains id_ (productos (self w)) = true).
  { apply dict_contains_true. eauto. }
  rewrite actualizar_cantidad_eq. unfold actualizar.
  rewrite Hc, Hr, Hp, execute_update_cantidad_ok; auto.
  - eapply Inv_stored_id; eauto.
  - now apply Z.leb_le.
Qed.

Lemma actualizar_precio_ok (w : world) (id_ : Z) (v : spec_float) (r : ref)
    (p : Producto.t) :
  Inv w -> dict_get id_ (productos (self w)) = Some r ->
  deref (objects w) r = Some p ->
  Sqlite.check_precio v = true ->
  actualizar_precio id_ v w
  = Some (Return true,
          mkWorld (store (objects w) r (Producto.set_precio p v))
            (mkInventario
               (Sqlite.commit
                  (Sqlite.changed (Sqlite.UpdatePrecio v id_)
                     (map (Sqlite.set_precio_where v id_)
                          (Sqlite.current (conn (self w))))
                     (conn (self w))))
               (productos (self w)))).
Proof.
  intros HI Hr Hp Hv.
  assert (Hc : dict_contains id_ (productos (self w)) = true).
  { apply dict_contains_true. eauto. }
  rewrite actualizar_precio_eq. unfold actualizar.
  rewrite Hc, Hr, Hp, execute_update_precio_ok; auto.
  - eapply Inv_stored_id; eauto.
  - now rewrite (Inv_has_id w id_ HI).
Qed.

(** X7. Of two updates of the quantity of one product the last one
    counts: after both, the objects, the mapping and the file are what the
    second update alone would have left. *)
Theorem last_quantity_wins (w : world) (id_ q1 q2 : Z) :
  Inv w -> dict_contains id_ (productos (self w)) = true ->
  Sqlite.in_int64 q1 = true -> 0 <= q1 ->
  Sqlite.in_int64 q2 = true -> 0 <= q2 ->
  exists w1 w2 w2',
    actualizar_cantidad id_ q1 w = Some (Return true, w1)
    /\ actualizar_cantidad id_ q2 w1 = Some (Return true, w2)
    /\ actualizar_cantidad id_ q2 w = Some (Return true, w2')
    /\ objects w2 = objects w2'
    /\ productos (self w2) = productos (self w2')
    /\ cerrar w2 = cerrar w2'.
Proof.
  intros HI Hc H1 P1 H2 P2.
  apply dict_contains_true in Hc as [r Hr].
  destruct (Inv_entry w id_ r HI Hr) as [p [Hp Hid]].
  pose proof (actualizar_cantidad_ok w id_ q1 r p HI Hr Hp H1 P1) as E1.
  destruct (actualizar_cantidad_Inv _ _ _ _ _ HI E1) as [HI1 _].
  set (w1 := mkWorld _ _) in *.
  assert (Hp1 : deref (objects w1) r
                = Some (Producto.set_cantidad p q1)).
  { simpl. eapply deref_store_same; eauto. }
  pose proof (actualizar_cantidad_ok w1 id_ q2 r _ HI1 Hr Hp1 H2 P2) as E2.
  pose proof (actualizar_cantidad_ok w id_ q2 r p HI Hr Hp H2 P2) as E2'.
  eexists _, _, _. split; [exact E1|]. split; [exact E2|].
  split; [exact E2'|]. simpl.
  split; [apply store_store|]. split; [reflexivity|].
  unfold cerrar, Sqlite.close. simpl. rewrite map_map.
  apply map_ext. intros x. unfold Sqlite.set_cantidad_where.
  destruct (Sqlite.col_id x =? id_) eqn:E; simpl; now rewrite E.
Qed.

Lemma last_quantity_wins_witness :
  exists w1 w2 w2',
    actualizar_cantidad 104 7 sembrado = Some (Return true, w1)
    /\ actualizar_cantidad 104 0 w1 = Some (Return true, w2)
    /\ actualizar_cantidad 104 0 sembrado = Some (Return true, w2')
    /\ objects w2 = objects w2'
    /\ productos (self w2) = productos (self w2')
    /\ cerrar w2 = cerrar w2'.
Proof.
  apply (last_quantity_wins sembrado 104 7 0);
    [exact Inv_sembrado | reflexivity | reflexivity | lia | reflexivity | lia].
Defined.

(** X8. An update of a quantity and an update of a price, on the same
    product or on two, can be made in either order: the objects, the
    mapping and the file come out the same. *)
Theorem quantity_and_price_commute (w : world) (i j q : Z)
    (v : spec_float) :
  Inv w ->
  dict_contains i (productos (self w)) = true ->
  dict_contains j (productos (self w)) = true ->
  Sqlite.in_int64 q = true -> 0 <= q -> Sqlite.check_precio v = true ->
  exists w1 w2 w1' w2',
    actualizar_cantidad i q w = Some (Return true, w1)
    /\ actualizar_precio j v w1 = Some (Return true, w2)
    /\ actualizar_precio j v w = Some (Return true, w1')
    /\ actualizar_cantidad i q w1' = Some (Return true, w2')
    /\ objects w2 = objects w2'
    /\ productos (self w2) = productos (self w2')
    /\ cerrar w2 = cerrar w2'.
Proof.
  intros HI Hi Hj Hq Hpos Hv.
  apply dict_contains_true in Hi as [ri Hri].
  apply dict_contains_true in Hj as [rj Hrj].
  destruct (Inv_entry w i ri HI Hri) as [pi [Hpi Hidi]].
  destruct (Inv_entry w j rj HI Hrj) as [pj [Hpj Hidj]].
  pose proof (actualizar_cantidad_ok w i q ri pi HI Hri Hpi Hq Hpos) as E1.
  pose proof (actualizar_precio_ok w j v rj pj HI Hrj Hpj Hv) as E1'.
  destruct (actualizar_cantidad_Inv _ _ _ _ _ HI E1) as [HI1 _].
  destruct (actualizar_precio_Inv _ _ _ _ _ HI E1') as [HI1' _].
  set (w1 := mkWorld _ _) in E1, HI1.
  set (w1' := mkWorld _ _) in E1', HI1'.
  assert (Htab : map (Sqlite.set_precio_where v j)
                   (map (Sqlite.set_cantidad_where q i)
                        (Sqlite.current (conn (self w))))
                 = map (Sqlite.set_cantidad_where q i)
                     (map (Sqlite.set_precio_where v j)
                          (Sqlite.current (conn (self w))))).
  { rewrite !map_map. apply map_ext. intros x.
    unfold Sqlite.set_precio_where, Sqlite.set_cantidad_where.
    destruct (Sqlite.col_id x =? i) eqn:Ei,
             (Sqlite.col_id x =? j) eqn:Ej; simpl;
      rewrite ?Ei, ?Ej; reflexivity. }
  destruct (Nat.eq_dec ri rj) as [Heq|Hne].
  - subst rj. assert (pj = pi) by congruence. subst pj.
    assert (Hp1 : deref (objects w1) ri = Some (Producto.set_cantidad pi q)).
    { simpl. eapply deref_store_same; eauto. }
    assert (Hp1' : deref (objects w1') ri = Some (Producto.set_precio pi v)).
    { simpl. eapply deref_store_same; eauto. }
    pose proof (actualizar_precio_ok w1 j v ri _ HI1 Hrj Hp1 Hv) as E2.
    pose proof (actualizar_cantidad_ok w1' i q ri _ HI1' Hri Hp1' Hq Hpos)
      as E2'.
    eexists _, _, _, _. repeat (split; [eassumption|]). simpl.
    split; [now rewrite !store_store|]. split; [reflexivity|].
    unfold cerrar, Sqlite.close. simpl. exact Htab.
  - assert (Hp1 : deref (objects w1) rj = Some pj).
    { simpl. rewrite deref_store_other; auto. }
    assert (Hp1' : deref (objects w1') ri = Some pi).
    { simpl. rewrite deref_store_other; auto. }
    pose proof (actualizar_precio_ok w1 j v rj _ HI1 Hrj Hp1 Hv) as E2.
    pose proof (actualizar_cantidad_ok w1' i q ri _ HI1' Hri Hp1' Hq Hpos)
      as E2'.
    eexists _, _, _, _. repeat (split; [eassumption|]). simpl.
    split; [now apply store_comm|]. split; [reflexivity|].
    unfold cerrar, Sqlite.close. simpl. exact Htab.
Qed.

Lemma quantity_and_price_commute_witness :
  exists w1 w2 w1' w2',
    actualizar_cantidad 101 3 sembrado = Some (Return true, w1)
    /\ actualizar_precio 101 (S754_infinity false) w1 = Some (Return true, w2)
    /\ actualizar_precio 101 (S754_infinity false) sembrado
       = Some (Return true, w1')
    /\ actualizar_cantidad 101 3 w1' = Some (Return true, w2')
    /\ objects w2 = objects w2'
    /\ productos (self w2) = productos (self w2')
    /\ cerrar w2 = cerrar w2'.
Proof.
  apply (quantity_and_price_commute sembrado 101 101 3 (S754_infinity false));
    [exact Inv_sembrado | reflexivity | reflexivity | reflexivity | lia
    | reflexivity].
Defined.

(** ** The order of the listing *)

Lemma entries_NoDup_values (h : heap) (d : dict) :
  NoDup (dict_keys d) ->
  (forall k r, In (k, r) d ->
     exists p, deref h r = Some p /\ Producto.id p = k) ->
  NoDup (dict_values d).
Proof.
  induction d as [|[k r] t IH]; simpl; intros Hnd He; [constructor|].
  inversion Hnd as [|? ? Hnotin Hnd']; subst.
  constructor;
    [|apply IH; [exact Hnd' | intros k' r' Hin; apply He; now right]].
  intros Hin. unfold dict_values in Hin.
  apply in_map_iff in Hin as [[k' r'] [E Hin]]. simpl in E. subst r'.
  destruct (He k r (or_introl eq_refl)) as [p [Hp Hid]].
  destruct (He k' r (or_intror Hin)) as [p' [Hp' Hid']].
  apply Hnotin. assert (Hk : k' = k) by congruence. rewrite Hk in Hin.
  exact (In_dict_keys k r t Hin).
Qed.

Lemma dict_pop_values (h : heap) (k : Z) (r : ref) (d : dict) :
  NoDup (dict_keys d) ->
  (forall k r, In (k, r) d ->
     exists p, deref h r = Some p /\ Producto.id p = k) ->
  dict_get k d = Some r ->
  dict_values (dict_pop k d)
  = filter (fun r' => negb (Nat.eqb r' r)) (dict_values d).
Proof.
  intros Hnd He Hr.
  pose proof (entries_NoDup_values h d Hnd He) as Hv.
  clear He. induction d as [|[k0 r0] t IH]; simpl in *; [discriminate|].
  inversion Hnd as [|? ? Hnotin Hnd']; subst.
  inversion Hv as [|? ? Hnotin' Hv']; subst.
  destruct (Z.eqb_spec k k0) as [->|Hne].
  - injection Hr as ->. rewrite Nat.eqb_refl. simpl.
    symmetry. apply filter_all. intros r' Hr'.
    destruct (Nat.eqb_spec r' r); [subst; contradiction | reflexivity].
  - destruct (Nat.eqb_spec r0 r) as [->|Hne'].
    + exfalso. apply Hnotin'. apply dict_get_In in Hr.
      apply (in_map snd) in Hr. exact Hr.
    + simpl. f_equal. now apply IH.
Qed.

(** X9. The listing never holds an object twice. A product that is added
    goes to the end of it, a product that is removed leaves the others in
    their order, and an update leaves the listing as it is. *)
Theorem listing_order (w : world) :
  Inv w ->
  NoDup (dict_values (productos (self w)))
  /\ (forall producto w',
        agregar_producto producto w = Some (Return true, w') ->
        dict_values (productos (self w'))
        = dict_values (productos (self w)) ++ [producto])
  /\ (forall id_ r o w',
        dict_get id_ (productos (self w)) = Some r ->
        eliminar_producto id_ w = Some (o, w') ->
        o = Return true
        /\ dict_values (productos (self w'))
           = filter (fun r' => negb (Nat.eqb r' r))
                    (dict_values (productos (self w))))
  /\ (forall id_ q v o w',
        actualizar_cantidad id_ q w = Some (o, w')
        \/ actualizar_precio id_ v w = Some (o, w') ->
        productos (self w') = productos (self w)).
Proof.
  intros HI. split; [|split; [|split]].
  - apply (entries_NoDup_values (objects w));
      [apply (inv_keys w HI) | apply (inv_entries w HI)].
  - intros producto w'. rewrite agregar_producto_eq.
    destruct (deref (objects w) producto) as [p|]; [|discriminate].
    destruct (dict_contains (Producto.id p) (productos (self w))) eqn:Hc;
      [discriminate|].
    destruct (Sqlite.execute _ _) as [[]|[c rows]]; try discriminate.
    intros H. injection H as <-. simpl.
    apply dict_contains_false in Hc. rewrite (dict_set_fresh _ _ _ Hc).
    unfold dict_values. now rewrite map_app.
  - intros id_ r o w' Hr.
    assert (Hc : dict_contains id_ (productos (self w)) = true).
    { apply dict_contains_true. eauto. }
    rewrite (eliminar_producto_present w id_ HI Hc).
    intros H. injection H as <- <-. split; [reflexivity|]. simpl.
    apply (dict_pop_values (objects w));
      [apply (inv_keys w HI) | apply (inv_entries w HI) | exact Hr].
  - intros id_ q v o w' [H|H].
    + rewrite actualizar_cantidad_eq in H.
      eapply actualizar_productos; eauto.
    + rewrite actualizar_precio_eq in H.
      eapply actualizar_productos; eauto.
Qed.

Lemma listing_order_witness :
  NoDup (dict_values (productos (self sembrado)))
  /\ (forall producto w',
        agregar_producto producto sembrado = Some (Return true, w') ->
        dict_values (productos (self w'))
        = dict_values (productos (self sembrado)) ++ [producto])
  /\ (forall id_ r o w',
        dict_get id_ (productos (self sembrado)) = Some r ->
        eliminar_producto id_ sembrado = Some (o, w') ->
        o = Return true
        /\ dict_values (productos (self w'))
           = filter (fun r' => negb (Nat.eqb r' r))
                    (dict_values (productos (self sembrado))))
  /\ (forall id_ q v o w',
        actualizar_cantidad id_ q sembrado = Some (o, w')
        \/ actualizar_precio id_ v sembrado = Some (o, w') ->
        productos (self w') = productos (self sembrado)).
Proof. apply (listing_order sembrado). exact Inv_sembrado. Defined.

(** ** More on the search *)

Section Search.

Local Open Scope string_scope.


Lemma string_app_nil_r (a : string) : a ++ "" = a.
Proof. induction a as [|x a IH]; simpl; [reflexivity | now rewrite IH]. Qed.

Lemma lstrip_suffix (s : string) : exists pre, s = pre ++ PyStr.lstrip s.
Proof.
  induction s as [|c t [pre IH]]; simpl.
  - now exists "".
  - destruct (PyStr.isspace c).
    + exists (String c pre). simpl. now rewrite <- IH.
    + now exists "".
Qed.

Lemma rstrip_prefix (s : string) : exists post, s = PyStr.rstrip s ++ post.
Proof.
  induction s as [|c t [post IH]]; simpl.
  - now exists "".
  - destruct (PyStr.rstrip t) as [|x r].
    + destruct (PyStr.isspace c).
      * now exists (String c t).
      * exists t. reflexivity.
    + exists post. simpl. simpl in IH. now rewrite <- IH.
Qed.

Lemma strip_infix (s : string) :
  exists pre post, s = pre ++ PyStr.strip s ++ post.
Proof.
  destruct (lstrip_suffix s) as [pre H1].
  destruct (rstrip_prefix (PyStr.lstrip s)) as [post H2].
  exists pre, post. unfold PyStr.strip. now rewrite <- H2.
Qed.


Lemma contains_strip (s : string) :
  PyStr.contains (PyStr.lower (PyStr.strip s)) (PyStr.lower s) = true.
Proof.
  apply contains_app. destruct (strip_infix s) as (pre & post & H).
  exists (PyStr.lower pre), (PyStr.lower post).
  now rewrite H at 1; rewrite !lower_app.
Qed.

End Search.

(** X10. A product of the mapping is found by its own name, written as it
    is stored (white space around it included). *)
Theorem found_by_own_name (w : world) (r : ref) (p : Producto.t) :
  Inv w -> In r (dict_values (productos (self w))) ->
  deref (objects w) r = Some p ->
  exists l,
    buscar_por_nombre (Producto.nombre p) w = Some (Return l, w) /\ In r l.
Proof.
  intros HI Hin Hp. eexists.
  split; [apply (buscar_por_nombre_eq _ w HI)|].
  apply filter_In. split; [exact Hin|].
  rewrite Hp. apply contains_strip.
Qed.

Lemma found_by_own_name_witness :
  exists l,
    buscar_por_nombre (Producto.nombre harina) sembrado
    = Some (Return l, sembrado) /\ In 0%nat l.
Proof.
  apply (found_by_own_name sembrado 0%nat harina);
    [exact Inv_sembrado | now left | reflexivity].
Defined.



(** ** The example products are inserted once *)

Lemma reopen_nonempty (w : world) (h : heap) :
  Inv w -> productos (self w) <> [] ->
  exists w', __init__ (cerrar w) h = Some (Return tt, w')
             /\ Inv w' /\ productos (self w') <> [].
Proof.
  intros HI Hd.
  destruct (reload_view w h HI) as (w' & E & HI' & Hv).
  exists w'. split; [exact E|]. split; [exact HI'|].
  destruct (productos (self w)) as [|[k r] d] eqn:Hprod; [congruence|].
  destruct (inv_entries w HI k r) as [p [Hp _]];
    [rewrite Hprod; now left|].
  specialize (Hv k). unfold view in Hv. rewrite Hprod in Hv. simpl in Hv.
  rewrite Z.eqb_refl, Hp in Hv.
  intros Hnil. rewrite Hnil in Hv. discriminate.
Qed.

(** X12. The example products are inserted at most once: after a first
    [cargar_ejemplo_neos], a second one does nothing, be it in the same
    run or in a repository opened again on the file that was left. *)
Theorem seed_at_most_once (w : world) :
  Inv w ->
  exists w1,
    cargar_ejemplo_neos w = Some (Return tt, w1)
    /\ cargar_ejemplo_neos w1 = Some (Return tt, w1)
    /\ forall h, exists w2,
         __init__ (cerrar w1) h = Some (Return tt, w2)
         /\ cargar_ejemplo_neos w2 = Some (Return tt, w2).
Proof.
  intros HI.
  assert (Hgoal : forall w1, Inv w1 -> productos (self w1) <> [] ->
            cargar_ejemplo_neos w1 = Some (Return tt, w1)
            /\ forall h, exists w2,
                 __init__ (cerrar w1) h = Some (Return tt, w2)
                 /\ cargar_ejemplo_neos w2 = Some (Return tt, w2)).
  { intros w1 HI1 Hd1. split; [now apply cargar_ejemplo_neos_nonempty|].
    intros h. destruct (reopen_nonempty w1 h HI1 Hd1) as (w2 & E & _ & Hd2).
    exists w2. split; [exact E | now apply cargar_ejemplo_neos_nonempty]. }
  destruct (productos (self w)) as [|e d] eqn:Hd.
  - destruct (cargar_ejemplo_neos_empty w HI Hd) as [E HI1].
    eexists. split; [exact E|]. apply Hgoal; [exact HI1|].
    destruct w as [h [c d']]. simpl in Hd. subst d'. simpl. discriminate.
  - exists w. assert (Hne : productos (self w) <> []) by (rewrite Hd; discriminate).
    split; [now apply cargar_ejemplo_neos_nonempty | now apply Hgoal].
Qed.

Lemma seed_at_most_once_witness :
  exists w1,
    cargar_ejemplo_neos (inicial []) = Some (Return tt, w1)
    /\ cargar_ejemplo_neos w1 = Some (Return tt, w1)
    /\ forall h, exists w2,
         __init__ (cerrar w1) h = Some (Return tt, w2)
         /\ cargar_ejemplo_neos w2 = Some (Return tt, w2).
Proof. apply (seed_at_most_once (inicial [])). apply Inv_inicial. Defined.

(** * The console *)

(** ** Asking for a number *)

Section Ask.

Context {A : Type}.
Variables (parse : string -> option A) (mensaje queja : string).

Local Abbreviation ask_body :=
  (io_bind (input mensaje)
     (fun linea =>
        match parse linea with
        | Some n => io_ret (Some n)
        | None => io_bind (print queja) (fun _ => io_ret None)
        end)).

Local Abbreviation asked bad :=
  (flat_map (fun _ : string => [mensaje; queja]) bad ++ [mensaje]).

Lemma ask_found (bad : list string) :
  forall (c : console) (fuel : nat) (good : string) (rest : list string)
         (z : A),
    stdin c = bad ++ good :: rest ->
    Forall (fun l => parse l = None) bad -> parse good = Some z ->
    (List.length bad < fuel)%nat ->
    while_fuel fuel ask_body c
    = Some (Done z,
            mkConsole (mundo c) rest (stdout c ++ asked bad) (closed c)).
Proof.
  induction bad as [|b bad IH]; intros c fuel good rest z Hs Hb Hg Hf;
    (destruct fuel as [|fuel]; [simpl in Hf; lia|]).
  - simpl. unfold io_bind, input. rewrite Hs. simpl. now rewrite Hg.
  - inversion Hb as [|? ? Hb1 Hb2]; subst.
    cbn [while_fuel]. unfold io_bind at 1. unfold input at 1.
    rewrite Hs. simpl. rewrite Hb1. unfold io_bind, print, io_ret. simpl.
    rewrite (IH _ fuel good rest z); simpl; auto; [|simpl in Hf; lia].
    now rewrite <- !app_assoc.
Qed.

Lemma ask_eof (bad : list string) :
  forall (c : console) (fuel : nat),
    stdin c = bad -> Forall (fun l => parse l = None) bad ->
    (List.length bad < fuel)%nat ->
    while_fuel fuel ask_body c
    = Some (Failed EOFError,
            mkConsole (mundo c) [] (stdout c ++ asked bad) (closed c)).
Proof.
  induction bad as [|b bad IH]; intros c fuel Hs Hb Hf;
    (destruct fuel as [|fuel]; [simpl in Hf; lia|]).
  - simpl. unfold io_bind, input. now rewrite Hs.
  - inversion Hb as [|? ? Hb1 Hb2]; subst.
    cbn [while_fuel]. unfold io_bind at 1. unfold input at 1.
    rewrite Hs. simpl. rewrite Hb1. unfold io_bind, print, io_ret. simpl.
    rewrite (IH _ fuel); simpl; auto; [|simpl in Hf; lia].
    now rewrite <- !app_assoc.
Qed.

Lemma ask_split (l : list string) :
  Forall (fun x => parse x = None) l
  \/ exists bad good rest z,
       l = bad ++ good :: rest
       /\ Forall (fun x => parse x = None) bad /\ parse good = Some z.
Proof.
  induction l as [|x l IH]; [left; constructor|].
  destruct (parse x) as [z|] eqn:E.
  - right. exists [], x, l, z. repeat split; auto.
  - destruct IH as [H|(bad & good & rest & z & -> & Hb & Hg)].
    + left. now constructor.
    + right. exists (x :: bad), good, rest, z. repeat split; auto.
Qed.

(** The loop ends on every input; it changes neither the repository nor
    the count of closings, and it puts no line back. *)
Lemma ask_ends (c : console) :
  exists r c',
    while_true ask_body c = Some (r, c')
    /\ mundo c' = mundo c /\ closed c' = closed c
    /\ (List.length (stdin c') <= List.length (stdin c))%nat.
Proof.
  unfold while_true.
  destruct (ask_split (stdin c)) as [H|(bad & good & rest & z & Hs & Hb & Hg)].
  - rewrite (ask_eof (stdin c) c _ eq_refl H) by lia.
    eexists _, _. split; [reflexivity|]. simpl. repeat split; lia.
  - rewrite (ask_found bad c _ good rest z Hs Hb Hg)
      by (rewrite Hs, length_app; simpl; lia).
    eexists _, _. split; [reflexivity|]. simpl. repeat split; auto.
    rewrite Hs, length_app. simpl. lia.
Qed.

End Ask.

(** X13. [pedir_int] asks again for every line that [int] refuses, with
    its complaint, and returns the first number it can read; the lines
    after it stay in the input. When no line can be read it ends in
    [EOFError]. [pedir_float] does the same with [float]. Neither touches
    the repository. *)
Theorem pedir_reads_first_number (py_int : string -> option Z)
    (py_float : string -> option spec_float) (mensaje : string)
    (c : console) (bad : list string) :
  (Forall (fun l => py_int l = None) bad ->
   (stdin c = bad ->
    pedir_int py_int mensaje c
    = Some (Failed EOFError,
            mkConsole (mundo c) []
              (stdout c
               ++ flat_map (fun _ => [mensaje; "Debe ser un número entero."%string])
                    bad ++ [mensaje])
              (closed c)))
   /\ (forall good rest n,
         stdin c = bad ++ good :: rest -> py_int good = Some n ->
         pedir_int py_int mensaje c
         = Some (Done n,
                 mkConsole (mundo c) rest
                   (stdout c
                    ++ flat_map
                         (fun _ => [mensaje; "Debe ser un número entero."%string])
                         bad ++ [mensaje])
                   (closed c))))
  /\ (Forall (fun l => py_float l = None) bad ->
      (stdin c = bad ->
       pedir_float py_float mensaje c
       = Some (Failed EOFError,
               mkConsole (mundo c) []
                 (stdout c
                  ++ flat_map
                       (fun _ =>
                          [mensaje; "Debe ser un número decimal (usa punto)."%string])
                       bad ++ [mensaje])
                 (closed c)))
      /\ (forall good rest x,
            stdin c = bad ++ good :: rest -> py_float good = Some x ->
            pedir_float py_float mensaje c
            = Some (Done x,
                    mkConsole (mundo c) rest
                      (stdout c
                       ++ flat_map
                            (fun _ =>
                               [mensaje;
                                "Debe ser un número decimal (usa punto)."
                                  %string])
                            bad ++ [mensaje])
                      (closed c)))).
Proof.
  split; intros Hb; split.
  - intros Hs. unfold pedir_int, while_true.
    apply ask_eof; auto. rewrite Hs. lia.
  - intros good rest n Hs Hg. unfold pedir_int, while_true.
    eapply ask_found; eauto. rewrite Hs, length_app. simpl. lia.
  - intros Hs. unfold pedir_float, while_true.
    apply ask_eof; auto. rewrite Hs. lia.
  - intros good rest x Hs Hg. unfold pedir_float, while_true.
    eapply ask_found; eauto. rewrite Hs, length_app. simpl. lia.
Qed.

Lemma pedir_reads_first_number_witness :
  pedir_int int_numeral "ID: "
    (mkConsole sembrado ["x"; "1.5"; "-12"; "7"]%string [] 0)
  = Some (Done (-12),
          mkConsole sembrado ["7"]%string
            ([] ++ flat_map
                     (fun _ => ["ID: "; "Debe ser un número entero."]%string)
                     ["x"; "1.5"]%string ++ ["ID: "%string])
            0).
Proof.
  assert (Hb : Forall (fun l => int_numeral l = None) ["x"; "1.5"]%string)
    by (repeat constructor).
  exact (proj2 (proj1 (pedir_reads_first_number int_numeral float_numeral
                         "ID: "
                         (mkConsole sembrado
                            ["x"; "1.5"; "-12"; "7"]%string [] 0)
                         ["x"; "1.5"]%string) Hb)
           "-12"%string ["7"%string] (-12) eq_refl eq_refl).
Defined.

(** ** Printing a product *)




(** ** The rounds of [main] *)

























Lemma menu_eq (c : console) :
  exists out,
    menu c = Some (Done tt, mkConsole (mundo c) (stdin c) out (closed c)).
Proof. eexists. reflexivity. Qed.






(** ** Rounds that fail, rounds that refuse *)

Lemma io_bind_done {A B : Type} (m : IO A) (k : A -> IO B) (c c' : console)
    (a : A) :
  m c = Some (Done a, c') -> io_bind m k c = k a c'.
Proof. intros E. unfold io_bind. now rewrite E. Qed.

Lemma io_bind_failed {A B : Type} (m : IO A) (k : A -> IO B)
    (c c' : console) (e : console_exn) :
  m c = Some (Failed e, c') -> io_bind m k c = Some (Failed e, c').
Proof. intros E. unfold io_bind. now rewrite E. Qed.

Lemma pedir_int_first (py_int : string -> option Z) (mensaje : string)
    (c : console) (good : string) (rest : list string) (n : Z) :
  stdin c = good :: rest -> py_int good = Some n ->
  pedir_int py_int mensaje c
  = Some (Done n,
          mkConsole (mundo c) rest (stdout c ++ [mensaje]) (closed c)).
Proof.
  intros Hs Hg. unfold pedir_int, while_true.
  rewrite (ask_found py_int mensaje "Debe ser un número entero." []
             c _ good rest n Hs (Forall_nil _) Hg); [reflexivity|].
  simpl. lia.
Qed.

Lemma pedir_float_first (py_float : string -> option spec_float)
    (mensaje : string) (c : console) (good : string) (rest : list string)
    (x : spec_float) :
  stdin c = good :: rest -> py_float good = Some x ->
  pedir_float py_float mensaje c
  = Some (Done x,
          mkConsole (mundo c) rest (stdout c ++ [mensaje]) (closed c)).
Proof.
  intros Hs Hg. unfold pedir_float, while_true.
  rewrite (ask_found py_float mensaje
             "Debe ser un número decimal (usa punto)." []
             c _ good rest x Hs (Forall_nil _) Hg); [reflexivity|].
  simpl. lia.
Qed.

Lemma actualizar_cantidad_negative (w : world) (id_ q : Z) :
  Inv w -> dict_contains id_ (productos (self w)) = true ->
  Sqlite.in_int64 q = true -> q < 0 ->
  actualizar_cantidad id_ q w = Some (Raise IntegrityError, w).
Proof.
  intros HI Hc Hq Hneg.
  rewrite actualizar_cantidad_eq. unfold actualizar. rewrite Hc.
  unfold Sqlite.execute, Sqlite.run_update_cantidad.
  rewrite Hq, (Inv_stored_id w id_ HI Hc), (Inv_has_id w id_ HI), Hc.
  unfold Sqlite.check_cantidad.
  destruct (Z.leb_spec 0 q); [lia | reflexivity].
Qed.

Lemma actualizar_precio_negative (w : world) (id_ : Z) (v : spec_float) :
  Inv w -> dict_contains id_ (productos (self w)) = true ->
  Sqlite.check_precio v = false ->
  actualizar_precio id_ v w = Some (Raise IntegrityError, w).
Proof.
  intros HI Hc Hv.
  rewrite actualizar_precio_eq. unfold actualizar. rewrite Hc.
  unfold Sqlite.execute, Sqlite.run_update_precio.
  rewrite (Inv_stored_id w id_ HI Hc), (Inv_has_id w id_ HI), Hc.
  destruct (Sqlite.bind_float v) as [v'|] eqn:Hb; [|reflexivity].
  apply bind_float_Some in Hb. subst v'. now rewrite Hv.
Qed.

Lemma lift_raise {A : Type} (m : M A) (c : console) (e : exn) (w : world) :
  m (mundo c) = Some (Raise e, w) ->
  lift m c
  = Some (Failed (FromInventario e),
          mkConsole w (stdin c) (stdout c) (closed c)).
Proof. intros E. unfold lift. now rewrite E. Qed.


Section Rounds.

Variable py_int : string -> option Z.
Variable py_float : string -> option spec_float.

Lemma main_round_option (c : console) (l : string) (rest : list string) :
  stdin c = l :: rest ->
  exists out,
    main_round py_int py_float c
    = main_opcion py_int py_float (PyStr.strip l)
        (mkConsole (mundo c) rest out (closed c)).
Proof.
  intros Hs. unfold main_round. unfold io_bind at 1.
  destruct (menu_eq c) as [out ->].
  unfold io_bind at 1. unfold input. cbn [mundo stdin stdout closed].
  rewrite Hs. eexists. reflexivity.
Qed.

Lemma round_negative_quantity (c : console) (l_op l_id l_q : string)
    (rest : list string) (id_ q : Z) :
  Inv (mundo c) -> stdin c = l_op :: l_id :: l_q :: rest ->
  PyStr.strip l_op = "3"%string ->
  py_int l_id = Some id_ -> py_int l_q = Some q ->
  dict_contains id_ (productos (self (mundo c))) = true ->
  Sqlite.in_int64 q = true -> q < 0 ->
  exists out,
    main_round py_int py_float c
    = Some (Failed (FromInventario IntegrityError),
            mkConsole (mundo c) rest out (closed c)).
Proof.
  intros HI Hs Hop Hid Hq Hc Hr Hneg.
  destruct (main_round_option c _ _ Hs) as [out ->]. rewrite Hop.
  unfold main_opcion. cbn [String.eqb Ascii.eqb Bool.eqb].
  erewrite io_bind_done by (eapply pedir_int_first; [reflexivity | exact Hid]).
  erewrite io_bind_done by (eapply pedir_int_first; [reflexivity | exact Hq]).
  erewrite io_bind_failed.
  2:{ apply lift_raise. simpl.
      now apply actualizar_cantidad_negative. }
  simpl. eexists. reflexivity.
Qed.

Lemma round_negative_price (c : console) (l_op l_id l_v : string)
    (rest : list string) (id_ : Z) (v : spec_float) :
  Inv (mundo c) -> stdin c = l_op :: l_id :: l_v :: rest ->
  PyStr.strip l_op = "4"%string ->
  py_int l_id = Some id_ -> py_float l_v = Some v ->
  dict_contains id_ (productos (self (mundo c))) = true ->
  Sqlite.check_precio v = false ->
  exists out,
    main_round py_int py_float c
    = Some (Failed (FromInventario IntegrityError),
            mkConsole (mundo c) rest out (closed c)).
Proof.
  intros HI Hs Hop Hid Hv Hc Hneg.
  destruct (main_round_option c _ _ Hs) as [out ->]. rewrite Hop.
  unfold main_opcion. cbn [String.eqb Ascii.eqb Bool.eqb].
  erewrite io_bind_done by (eapply pedir_int_first; [reflexivity | exact Hid]).
  erewrite io_bind_done
    by (eapply pedir_float_first; [reflexivity | exact Hv]).
  erewrite io_bind_failed.
  2:{ apply lift_raise. simpl.
      now apply actualizar_precio_negative. }
  simpl. eexists. reflexivity.
Qed.

End Rounds.

Lemma cargar_ejemplo_neos_io_nonempty (c : console) :
  productos (self (mundo c)) <> [] ->
  cargar_ejemplo_neos_io c = Some (Done tt, c).
Proof.
  intros Hd. unfold cargar_ejemplo_neos_io.
  unfold io_bind at 1. unfold lift at 1. rewrite listar_todos_eq.
  unfold io_bind at 1. unfold lift at 1. cbn [mundo stdin stdout closed].
  rewrite (cargar_ejemplo_neos_nonempty _ Hd).
  destruct (productos (self (mundo c))) as [|x d]; [congruence|].
  simpl. unfold io_ret. now destruct c.
Qed.

Lemma init_with_row (file : Sqlite.table) (h : heap) (id_ : Z)
    (row : Sqlite.row) :
  table_ok file -> Sqlite.row_lookup id_ file = Some row ->
  exists w0,
    __init__ file h = Some (Return tt, w0) /\ Inv w0
    /\ dict_contains id_ (productos (self w0)) = true
    /\ productos (self w0) <> []
    /\ cerrar w0 = file.
Proof.
  intros Hok Hrow.
  destruct (__init___Inv file h Hok) as (w0 & E & HI & Hv).
  exists w0. split; [exact E|]. split; [exact HI|].
  assert (Hc : dict_contains id_ (productos (self w0)) = true).
  { specialize (Hv id_). rewrite Hrow in Hv. unfold view in Hv.
    unfold dict_contains.
    destruct (dict_get id_ (productos (self w0))); [reflexivity|].
    discriminate. }
  split; [exact Hc|]. split.
  - intros Hnil. rewrite Hnil in Hc. discriminate.
  - rewrite (__init___eq file h (proj1 Hok)) in E.
    injection E as <-. reflexivity.
Qed.

(** X16. The program ends on a negative number: when option 3 is chosen
    with an identifier of the file and a negative quantity, or option 4
    with a negative (or NaN) price, [main] is left by [IntegrityError],
    whatever lines follow; the connection has been closed and the file is
    as it was. *)
Theorem negative_update_ends_main (py_int : string -> option Z)
    (py_float : string -> option spec_float) (file : Sqlite.table)
    (h : heap) (l_op l_id l_val : string) (rest : list string)
    (id_ : Z) (row : Sqlite.row) :
  table_ok file -> Sqlite.row_lookup id_ file = Some row ->
  py_int l_id = Some id_ ->
  (forall q,
     PyStr.strip l_op = "3"%string -> py_int l_val = Some q ->
     Sqlite.in_int64 q = true -> q < 0 ->
     exists c,
       main py_int py_float file h (l_op :: l_id :: l_val :: rest)
       = Some (Failed (FromInventario IntegrityError), c)
       /\ closed c = 1%nat /\ stdin c = rest /\ cerrar (mundo c) = file)
  /\ (forall v,
        PyStr.strip l_op = "4"%string -> py_float l_val = Some v ->
        Sqlite.check_precio v = false ->
        exists c,
          main py_int py_float file h (l_op :: l_id :: l_val :: rest)
          = Some (Failed (FromInventario IntegrityError), c)
          /\ closed c = 1%nat /\ stdin c = rest /\ cerrar (mundo c) = file).
Proof.
  intros Hok Hrow Hid.
  destruct (init_with_row file h id_ row Hok Hrow)
    as (w0 & E0 & HI0 & Hc0 & Hne0 & Hf0).
  split.
  - intros q Hop Hq Hr Hneg. unfold main. rewrite E0.
    unfold io_bind at 1.
    rewrite cargar_ejemplo_neos_io_nonempty by exact Hne0.
    unfold try_finally, while_true. cbn [stdin List.length while_fuel].
    destruct (round_negative_quantity py_int py_float
                (mkConsole w0 (l_op :: l_id :: l_val :: rest) [] 0)
                l_op l_id l_val rest id_ q HI0 eq_refl Hop Hid Hq Hc0 Hr Hneg)
      as [out ->].
    unfold cerrar_io. eexists. split; [reflexivity|]. simpl. auto.
  - intros v Hop Hv Hneg. unfold main. rewrite E0.
    unfold io_bind at 1.
    rewrite cargar_ejemplo_neos_io_nonempty by exact Hne0.
    unfold try_finally, while_true. cbn [stdin List.length while_fuel].
    destruct (round_negative_price py_int py_float
                (mkConsole w0 (l_op :: l_id :: l_val :: rest) [] 0)
                l_op l_id l_val rest id_ v HI0 eq_refl Hop Hid Hv Hc0 Hneg)
      as [out ->].
    unfold cerrar_io. eexists. split; [reflexivity|]. simpl. auto.
Qed.

Lemma negative_update_ends_main_witness :
  exists c,
    main int_numeral float_numeral (map row_of ejemplos) []
      [" 3"; "101"; "-5"; "6"; "0"]%string
    = Some (Failed (FromInventario IntegrityError), c)
    /\ closed c = 1%nat /\ stdin c = ["6"; "0"]%string
    /\ cerrar (mundo c) = map row_of ejemplos.
Proof.
  apply (proj1 (negative_update_ends_main int_numeral float_numeral
                  (map row_of ejemplos) [] " 3" "101" "-5"
                  ["6"; "0"]%string 101 (row_of harina)
                  ejemplos_table_ok eq_refl eq_refl) (-5));
    [reflexivity | reflexivity | reflexivity | lia].
Defined.


